(** * ctapipe.reco.DeepLearningReconstructor

    A shallow embedding of [ONNXModel] and [DeepLearningReconstructor]
    (src/ctapipe/reco/DeepLearningReconstructor.py) and the properties of
    argument validation, camera dispatch and construction that the
    specification states about them. *)

From Stdlib Require Import ZArith List Lia.
From Stdlib Require Floats.SpecFloat.
From stdpp Require Import base option list strings gmap.

Set Default Proof Using "Type".
Set Warnings "-register-all,-clear-no-such-hyp".

(** ** Exceptions and results *)

(** The text of each [ValueError] raised in the file, with the values that
    the f-strings interpolate. *)
Inductive message : Type :=
| MsgNotLoaded (path : string)
    (* 'The model could not be loaded from "{path}"' *)
| MsgAtLeastOne
    (* "The number of given (named xor ordered) arguments must be at least 1" *)
| MsgNamedAndOrdered
    (* "Ordered arguments and named arguments can't be given in the same prediction" *)
| MsgArgumentCount (given n_inputs : nat)
    (* "The number of given arguments ({given}) must be equal to the number of
       model inputs ({n_inputs})" *)
| MsgSameLength
    (* "All inputs must have the same length" *)
| MsgNotSupported (cams : list string)
    (* "Some of the given camera names are not supported by this
       reconstructor: {', '.join(cams)}" *).

Inductive exn : Type :=
| ValueError (msg : message)
| TypeError                     (* len() of an object without a length *)
| IndexError                    (* args[i] past the end of the tuple *)
| KeyError (key : string)       (* missing key of a str-keyed dict *)
| KeyErrorTel (tel_id : Z)      (* missing telescope id *)
| RuntimeError                  (* onnxruntime could not open a model *)
| BackendError (code : nat)     (* anything else the backend raises *)
| SystemError.                  (* a reference to no object, or to one of the
                                   wrong class: not met in a running
                                   interpreter *)

Inductive result (A : Type) : Type :=
| Return (a : A)
| Raise (e : exn).
Arguments Return {A} a.
Arguments Raise {A} e.

#[global] Instance result_ret : MRet result := fun A a => Return a.
#[global] Instance result_bind : MBind result := fun A B f c =>
  match c with
  | Return a => f a
  | Raise e => Raise e
  end.

(** A Python [for] loop whose body may raise: the state is threaded
    through the iterations and the first exception ends the loop. *)
Fixpoint for_each {A S : Type} (body : S → A → result S) (xs : list A) (s : S)
  : result S :=
  match xs with
  | [] => Return s
  | x :: xs' => s' ← body s x; for_each body xs' s'
  end.

(** A list comprehension [[f x for x in xs]] whose element expression may
    raise. *)
Fixpoint comprehension {A B : Type} (f : A → result B) (xs : list A)
  : result (list B) :=
  match xs with
  | [] => Return []
  | x :: xs' => y ← f x; ys ← comprehension f xs'; Return (y :: ys)
  end.

(** The error taxonomy of the specification, as a classification of the
    raise sites of the file (all of them raise [ValueError]). *)
Inductive ErrorKind : Type :=
| ModelLoadError
| UnsupportedCameraError
| InvalidArgumentUsageError
| ArityMismatchError
| BatchSizeMismatchError.

Definition error_kind (e : exn) : option ErrorKind :=
  match e with
  | ValueError (MsgNotLoaded _) => Some ModelLoadError
  | ValueError (MsgNotSupported _) => Some UnsupportedCameraError
  | ValueError MsgAtLeastOne => Some InvalidArgumentUsageError
  | ValueError MsgNamedAndOrdered => Some InvalidArgumentUsageError
  | ValueError (MsgArgumentCount _ _) => Some ArityMismatchError
  | ValueError MsgSameLength => Some BatchSizeMismatchError
  | _ => None
  end.

Definition fails_with {A : Type} (r : result A) (k : ErrorKind) : Prop :=
  ∃ e, r = Raise e ∧ error_kind e = Some k.

Definition succeeds {A : Type} (r : result A) : Prop := ∃ a, r = Return a.

(** ** Python dicts: insertion-ordered, one entry per key *)

Abbreviation dict K V := (list (K * V)) (only parsing).

Section dict.
Context {K V : Type} `{EqDecision K}.

Definition keys (d : dict K V) : list K := d.*1.
Definition values (d : dict K V) : list V := d.*2.

(** [d.get(k)] *)
Fixpoint dict_get (d : dict K V) (k : K) : option V :=
  match d with
  | [] => None
  | (k', v) :: d' => if decide (k' = k) then Some v else dict_get d' k
  end.

(** [d[k] = v]: an existing key keeps its position, a new one goes last. *)
Fixpoint dict_set (d : dict K V) (k : K) (v : V) : dict K V :=
  match d with
  | [] => [(k, v)]
  | (k', v') :: d' =>
      if decide (k' = k) then (k, v) :: d' else (k', v') :: dict_set d' k v
  end.

(** What Python guarantees of every dict. *)
Definition dict_wf (d : dict K V) : Prop := NoDup (keys d).
End dict.

(** [d[k]] on a str-keyed dict. *)
Definition getitem {V : Type} (d : dict string V) (k : string) : result V :=
  match dict_get d k with
  | Some v => Return v
  | None => Raise (KeyError k)
  end.

(** ** Values *)

Inductive dtype : Type := float64 | float32 | int64 | bool_.

#[global] Instance dtype_eq_dec : EqDecision dtype.
Proof. solve_decision. Defined.

Inductive element : Type :=
| EFloat (x : SpecFloat.spec_float)
| EInt (n : Z).

(** [numpy.ndarray]: element type, shape and the elements in row-major
    order. *)
Record ndarray : Type := {
  arr_dtype : dtype;
  arr_shape : list nat;
  arr_data : list element;
}.

(** Rounding of a double to the nearest single (ties to even): binary32 has
    a 24-bit significand and infinities at exponent 128. *)
Definition narrow (e : element) : element :=
  match e with
  | EFloat (SpecFloat.S754_finite s m ex) =>
      EFloat (SpecFloat.binary_round 24 128 s m ex)
  | _ => e
  end.

(** [a.astype(np.float32)]: a new array, same shape. *)
Definition astype_float32 (a : ndarray) : ndarray :=
  {| arr_dtype := float32;
     arr_shape := arr_shape a;
     arr_data := narrow <$> arr_data a |}.

(** The objects that reach [predict]: arrays, lists, dicts with str keys,
    tuples and plain numbers. *)
Inductive value : Type :=
| VArray (a : ndarray)
| VList (items : list value)
| VDict (entries : list (string * value))
| VTuple (items : list value)
| VNum (x : element).

(** [len(v)] *)
Definition len (v : value) : result nat :=
  match v with
  | VArray a =>
      match arr_shape a with
      | [] => Raise TypeError     (* len() of unsized object *)
      | n :: _ => Return n
      end
  | VList items => Return (length items)
  | VDict entries => Return (length entries)
  | VTuple items => Return (length items)
  | VNum _ => Raise TypeError
  end.

(** ** The inference backend *)

Record NodeArg : Type := { name : string }.

(** [onnxruntime.InferenceSession]: the declared inputs and outputs and
    [run(None, input_feed)], a function of the feed. *)
Record InferenceSession : Type := {
  get_inputs : list NodeArg;
  get_outputs : list NodeArg;
  run : dict string value → result (list value);
}.

(** ** ONNXModel *)

Module ONNXModel.

Record t : Type := { sess : InferenceSession }.

(** lines 12-16; [open] is [onnxruntime.InferenceSession(path)]. *)
Definition __init__ (open : string → result InferenceSession) (path : string)
  : result t :=
  match open path with
  | Return s => Return {| sess := s |}
  | Raise RuntimeError => Raise (ValueError (MsgNotLoaded path))
  | Raise e => Raise e
  end.

Definition inputs (self : t) : list NodeArg := get_inputs (sess self).
Definition outputs (self : t) : list NodeArg := get_outputs (sess self).

(** lines 34-48 *)
Definition check_arguments {A : Type} (self : t) (args : list A)
    (kwargs : dict string A) : result unit :=
  let n_inputs := length (inputs self) in
  if decide (length kwargs = 0 ∧ length args = 0) then
    Raise (ValueError MsgAtLeastOne)
  else if decide (length kwargs ≠ 0 ∧ length args ≠ 0) then
    Raise (ValueError MsgNamedAndOrdered)
  else if decide (length kwargs ≠ n_inputs ∧ length args ≠ n_inputs) then
    Raise (ValueError
             (MsgArgumentCount (length kwargs `max` length args) n_inputs))
  else Return ().

(** lines 49-51 *)
Definition bind_positional (self : t) (args : list value)
    (kwargs : dict string value) : result (dict string value) :=
  if decide (length args ≠ 0) then
    for_each (fun kwargs i =>
                match inputs self !! i, args !! i with
                | Some inp, Some a => Return (dict_set kwargs (name inp) a)
                | _, _ => Raise IndexError
                end)
             (seq 0 (length (inputs self))) kwargs
  else Return kwargs.

(** lines 53-55 *)
Definition check_lengths (kwargs : dict string value) : result unit :=
  n_predictions ← comprehension (fun name => v ← getitem kwargs name; len v)
                                (keys kwargs);
  if decide (length (remove_dups n_predictions) ≠ 1) then
    Raise (ValueError MsgSameLength)
  else Return ().

(** lines 57-62 *)
Definition convert_inputs (kwargs : dict string value)
  : result (dict string value) :=
  for_each (fun kwargs name =>
              inp ← getitem kwargs name;
              match inp with
              | VArray a =>
                  if decide (arr_dtype a = float64) then
                    Return (dict_set kwargs name (VArray (astype_float32 a)))
                  else Return kwargs
              | _ => Return kwargs
              end)
           (keys kwargs) kwargs.

(** lines 18-63 *)
Definition predict (self : t) (args : list value) (kwargs : dict string value)
  : result (list value) :=
  check_arguments self args kwargs;;
  kwargs ← bind_positional self args kwargs;
  check_lengths kwargs;;
  kwargs ← convert_inputs kwargs;
  run (sess self) kwargs.

End ONNXModel.

(** ** The array description *)

(** Modelled from the spec: the array description that [predict] receives
    as [subarray] (its class is not among the sources).  The spec's
    ArrayLayout yields the camera type of a telescope id; line 159 reads it
    as [subarray.tel[tel_id].camera.geometry.camera_name]. *)
Record CameraGeometry : Type := { camera_name : string }.
Record CameraDescription : Type := { geometry : CameraGeometry }.
Record TelescopeDescription : Type := { camera : CameraDescription }.
Record SubarrayDescription : Type := { tel : gmap Z TelescopeDescription }.

(** ** DeepLearningReconstructor *)

(** What [_reconstruct] receives: camera name to the list of model outputs,
    one per observation. *)
Definition PredictionBatch : Type := dict string (list (list value)).

(** The two abstract members that a concrete reconstructor provides. *)
Class ReconstructorVariant (Shower : Type) : Type := {
  supported_cameras : list string;
  _reconstruct : PredictionBatch → result Shower;
}.

Module DeepLearningReconstructor.

Record t : Type := { models : dict string ONNXModel.t }.

Section methods.
Context {Shower : Type} `{!ReconstructorVariant Shower}.

(** lines 104-119; [open] is [onnxruntime.InferenceSession] and
    [super_init] the outcome of the initialiser of the base class
    [Reconstructor], which is not among the sources. *)
Definition __init__ (open : string → result InferenceSession)
    (super_init : result unit) (models_paths : dict string string) : result t :=
  models ← for_each (fun models '(cam_name, path) =>
                       m ← ONNXModel.__init__ open path;
                       Return (dict_set models cam_name m))
                    models_paths [];
  let not_supported_cams :=
    filter (fun cam_name => cam_name ∉ supported_cameras) (keys models) in
  if decide (0 < length not_supported_cams) then
    Raise (ValueError (MsgNotSupported not_supported_cams))
  else
    super_init;; Return {| models := models |}.

(** lines 172-187 *)
Definition _get_model (self : t) (cam_name : string) : result ONNXModel.t :=
  getitem (models self) cam_name.

(** lines 156-160 *)
Definition obs_inputs (tels_dict : dict Z value) (subarray : SubarrayDescription)
    (cam_name : string) : result (list value) :=
  for_each (fun acc tel_id =>
              match tel subarray !! tel_id with
              | None => Raise (KeyErrorTel tel_id)
              | Some t =>
                  if decide (camera_name (geometry (camera t)) = cam_name) then
                    match dict_get tels_dict tel_id with
                    | Some inp => Return (acc ++ [inp])
                    | None => Raise (KeyErrorTel tel_id)
                    end
                  else Return acc
              end)
           (keys tels_dict) [].

(** lines 164-169: how one observation is handed to the model. *)
Definition call_model (model : ONNXModel.t) (inp : value) : result (list value) :=
  match inp with
  | VList items => ONNXModel.predict model items []
  | VDict entries => ONNXModel.predict model [] entries
  | _ => ONNXModel.predict model [inp] []
  end.

(** lines 148-169: the dict handed to [_reconstruct]. *)
Definition predictions_of (self : t) (tels_dict : dict Z value)
    (subarray : SubarrayDescription) : result PredictionBatch :=
  for_each (fun predictions cam_name =>
              match dict_get (models self) cam_name with
              | None => Return predictions
              | Some _ =>
                  model ← _get_model self cam_name;
                  inps ← obs_inputs tels_dict subarray cam_name;
                  for_each (fun predictions inp =>
                              outs ← getitem predictions cam_name;
                              out ← call_model model inp;
                              Return (dict_set predictions cam_name (outs ++ [out])))
                           inps (dict_set predictions cam_name [])
              end)
           supported_cameras [].

(** lines 133-170 *)
Definition predict (self : t) (tels_dict : dict Z value)
    (subarray : SubarrayDescription) : result Shower :=
  predictions ← predictions_of self tels_dict subarray;
  _reconstruct predictions.

End methods.
End DeepLearningReconstructor.

(** ** Objects with identity

    [ONNXModel.predict] stores into [kwargs] and replaces arrays; whether
    the caller can see that depends on which objects are shared.  Here the
    same method runs on a store of objects: arguments are references, and
    every assignment of the source is a store. *)

Module Heap.

Definition loc : Type := nat.

Inductive cell : Type :=
| CValue (v : value)                 (* an array, list, tuple or number *)
| CDict (d : dict string loc)        (* a dict of references *)
| CModel (m : ONNXModel.t)           (* an ONNXModel: its [sess] *)
| CRegistry (models : dict string loc).
                                     (* a reconstructor: its [models] *)

Abbreviation heap := (gmap loc cell).

(** A computation on the store; an exception keeps the store as it is at
    the raise. *)
Definition M (A : Type) : Type := heap → result A * heap.

Definition ret {A : Type} (a : A) : M A := fun h => (Return a, h).
Definition raise {A : Type} (e : exn) : M A := fun h => (Raise e, h).
Definition bind {A B : Type} (c : M A) (f : A → M B) : M B := fun h =>
  match c h with
  | (Return a, h') => f a h'
  | (Raise e, h') => (Raise e, h')
  end.
Definition lift {A : Type} (r : result A) : M A := fun h => (r, h).

#[global] Instance M_ret : MRet M := @ret.
#[global] Instance M_bind : MBind M := fun A B f c => bind c f.

Definition alloc (c : cell) : M loc := fun h =>
  let l := fresh (dom h) in (Return l, <[l := c]> h).
Definition load (l : loc) : M cell := fun h =>
  match h !! l with
  | Some c => (Return c, h)
  | None => (Raise SystemError, h)
  end.
Definition store (l : loc) (c : cell) : M unit := fun h =>
  (Return (), <[l := c]> h).

Definition load_value (l : loc) : M value :=
  c ← load l; match c with CValue v => ret v | _ => raise SystemError end.
Definition load_dict (l : loc) : M (dict string loc) :=
  c ← load l; match c with CDict d => ret d | _ => raise SystemError end.
Definition load_model (l : loc) : M ONNXModel.t :=
  c ← load l; match c with CModel m => ret m | _ => raise SystemError end.

(** [d[k] = x] and [d[k]] on the dict object at [d]. *)
Definition setitem (d : loc) (k : string) (x : loc) : M unit :=
  entries ← load_dict d; store d (CDict (dict_set entries k x)).
Definition getitem_ref (d : loc) (k : string) : M loc :=
  entries ← load_dict d; lift (getitem entries k).

Fixpoint for_each_ {A : Type} (body : A → M unit) (xs : list A) : M unit :=
  match xs with
  | [] => ret ()
  | x :: xs' => body x;; for_each_ body xs'
  end.

Fixpoint comprehension_ {A B : Type} (f : A → M B) (xs : list A) : M (list B) :=
  match xs with
  | [] => ret []
  | x :: xs' => y ← f x; ys ← comprehension_ f xs'; ret (y :: ys)
  end.

(** What the backend reads: the feed with every reference followed. *)
Definition read_feed (kwargs : loc) : M (dict string value) :=
  entries ← load_dict kwargs;
  comprehension_ (fun '(k, l) => v ← load_value l; ret (k, v)) entries.

(** lines 18-63 on the store.  A call packs its named arguments into a new
    dict, which is the [kwargs] of the body; [sess.run] reads the arrays of
    the feed and returns new ones. *)
Definition predict (self : loc) (args : list loc) (named : dict string loc)
  : M (list loc) :=
  m ← load_model self;
  kwargs ← alloc (CDict named);
  lift (ONNXModel.check_arguments m args named);;
  (if decide (length args ≠ 0) then
     for_each_ (fun i =>
                  match ONNXModel.inputs m !! i, args !! i with
                  | Some inp, Some a => setitem kwargs (name inp) a
                  | _, _ => raise IndexError
                  end)
               (seq 0 (length (ONNXModel.inputs m)))
   else ret ());;
  entries ← load_dict kwargs;
  let names := keys entries in
  n_predictions ← comprehension_ (fun name => inp ← getitem_ref kwargs name;
                                             v ← load_value inp;
                                             lift (len v)) names;
  (if decide (length (remove_dups n_predictions) ≠ 1) then
     raise (ValueError MsgSameLength)
   else ret ());;
  for_each_ (fun name =>
               inp ← getitem_ref kwargs name;
               v ← load_value inp;
               match v with
               | VArray a =>
                   if decide (arr_dtype a = float64) then
                     new ← alloc (CValue (VArray (astype_float32 a)));
                     setitem kwargs name new
                   else ret ()
               | _ => ret ()
               end)
            names;;
  feed ← read_feed kwargs;
  outs ← lift (run (ONNXModel.sess m) feed);
  comprehension_ (fun v => alloc (CValue v)) outs.

(** A computation keeps the objects of [h0]: started on a store that holds
    them, it ends on one that holds them, unchanged. *)
Definition keeps {A : Type} (h0 : heap) (c : M A) : Prop :=
  ∀ h, h0 ⊆ h → h0 ⊆ (c h).2.

(** The object at [l] is the value [v]. *)
Definition points_to (h : heap) (l : loc) (v : value) : Prop :=
  h !! l = Some (CValue v).

(** A dict of references stands for the dict of the values referred to. *)
Definition represents (h : heap) (entries : dict string loc)
    (d : dict string value) : Prop :=
  Forall2 (fun x y => x.1 = y.1 ∧ points_to h x.2 y.2) entries d.

(** The dict object at [kwargs] stands for [d]. *)
Definition dict_at (h : heap) (kwargs : loc) (d : dict string value) : Prop :=
  ∃ entries, h !! kwargs = Some (CDict entries) ∧ represents h entries d.

(** Every value of [h] is still there in [h']. *)
Definition values_kept (h h' : heap) : Prop :=
  ∀ l v, points_to h l v → points_to h' l v.

(** An outcome without the returned value. *)
Definition outcome {A : Type} (r : result A) : result unit :=
  match r with Return _ => Return () | Raise e => Raise e end.

End Heap.

(** ** ctapipe.io.hessio: the event source

    [hessio_event_source] (src/ctapipe/io/hessio.py) is a generator over
    the events of a file read through the hessio library.  The library is
    not part of the sources: it keeps one event current and its getters
    answer for that event.  A generator is given by what it yields when it
    is run until it ends, and by how it ends.  The source yields the one
    object [cont] every time and changes it between the yields: what is
    listed is the state of [cont] at each [yield]. *)

Module Hessio.

(** What the getters of the library answer while an event is current. *)
Record LibEvent : Type := {
  lib_run_id : Z;
  lib_event_id : Z;
  get_teldata_list : list Z;
  get_pixel_position : Z → value;        (* telescope id *)
  get_num_channel : Z → Z;               (* telescope id *)
  get_adc_sample : Z → Z → value;        (* channel, telescope id *)
  get_adc_sum : Z → Z → value;           (* channel, telescope id *)
}.

(** The file behind a url: what [file_open] returns for it and the events
    that [move_to_next_event] then goes through. *)
Record File : Type := {
  file_open : Z;
  move_to_next_event : list LibEvent;
}.

(** The container [cont]; an item is [None] from [add_item] until it is
    assigned. *)
Record Container : Type := {
  run_id : option Z;
  event_id : option Z;
  tels_with_data : option (list Z);
  sampledata : option (dict Z (dict Z value));
  sumdata : option (dict Z (dict Z value));
  num_channels : dict Z Z;
  pixel_pos : dict Z value;
  meta_input : string;
  meta_max_events : option Z;
}.

Inductive ending : Type :=
| Finished                (* the generator returned *)
| Raised (e : exn).

(** [d[k]] on a [defaultdict(int)]: a missing key is added with 0. *)
Definition defaultdict_int_get (d : dict Z Z) (k : Z) : Z * dict Z Z :=
  match dict_get d k with
  | Some n => (n, d)
  | None => (0%Z, dict_set d k 0%Z)
  end.

(** [d[tel_id][chan] = v] on a [defaultdict(dict)]. *)
Definition set_channel (d : dict Z (dict Z value)) (tel_id chan : Z) (v : value)
  : dict Z (dict Z value) :=
  dict_set d tel_id (dict_set (default [] (dict_get d tel_id)) chan v).

(** lines 67-78: one telescope of the current event. *)
Definition read_telescope (ev : LibEvent) (cont : Container) (tel_id : Z) : Container :=
  let '(pixel_pos, num_channels) :=
    if decide (tel_id ∈ keys (pixel_pos cont)) then (pixel_pos cont, num_channels cont)
    else (dict_set (pixel_pos cont) tel_id (get_pixel_position ev tel_id),
          dict_set (num_channels cont) tel_id (get_num_channel ev tel_id)) in
  let '(n, num_channels) := defaultdict_int_get num_channels tel_id in
  let '(sampledata, sumdata) :=
    foldl (fun '(sampledata, sumdata) chan =>
             (set_channel sampledata tel_id chan (get_adc_sample ev chan tel_id),
              set_channel sumdata tel_id chan (get_adc_sum ev chan tel_id)))
          (default [] (sampledata cont), default [] (sumdata cont))
          (seqZ 0 n) in
  {| run_id := run_id cont; event_id := event_id cont;
     tels_with_data := tels_with_data cont;
     sampledata := Some sampledata; sumdata := Some sumdata;
     num_channels := num_channels; pixel_pos := pixel_pos;
     meta_input := meta_input cont; meta_max_events := meta_max_events cont |}.

(** lines 56-78: the body of the loop up to the [yield]. *)
Definition read_event (ev : LibEvent) (cont : Container) : Container :=
  foldl (read_telescope ev)
        {| run_id := Some (lib_run_id ev); event_id := Some (lib_event_id ev);
           tels_with_data := Some (get_teldata_list ev);
           sampledata := Some []; sumdata := Some [];
           num_channels := num_channels cont; pixel_pos := pixel_pos cont;
           meta_input := meta_input cont; meta_max_events := meta_max_events cont |}
        (get_teldata_list ev).

(** lines 54-83: the loop.  [counter > max_events] is a TypeError when
    [max_events] is [None]. *)
Fixpoint events (max_events : option Z) (stream : list LibEvent) (cont : Container)
    (counter : Z) : list Container * ending :=
  match stream with
  | [] => ([], Finished)
  | ev :: stream' =>
      let cont := read_event ev cont in
      let counter := (counter + 1)%Z in
      match max_events with
      | None => ([cont], Raised TypeError)
      | Some n =>
          if decide (n < counter)%Z then ([cont], Finished)
          else let '(yielded, e) := events max_events stream' cont counter in
               (cont :: yielded, e)
      end
  end.

(** lines 21-83 *)
Definition hessio_event_source (file : File) (url : string) (max_events : option Z)
  : list Container * ending :=
  if decide (file_open file ≠ 0%Z) then ([], Raised RuntimeError)
  else
    events max_events (move_to_next_event file)
           {| run_id := None; event_id := None; tels_with_data := None;
              sampledata := None; sumdata := None;
              num_channels := []; pixel_pos := [];
              meta_input := url; meta_max_events := max_events |}
           0%Z.

(** A look-up in a cache to which keys are only added: the old value if
    there is one. *)
Definition kept_or {V : Type} (old : option V) (new : option V) : option V :=
  match old with Some v => Some v | None => new end.

(** The first of the events in which a telescope has data. *)
Definition first_seen (stream : list LibEvent) (tel_id : Z) : option LibEvent :=
  head (filter (fun ev => tel_id ∈ get_teldata_list ev) stream).

(** The channels [0 .. n-1] in order, each with what a getter answers for
    it. *)
Definition channel_row (getter : Z → value) (n : Z) : dict Z value :=
  (fun chan => (chan, getter chan)) <$> seqZ 0 n.

(** What [sampledata] or [sumdata] holds for a telescope once the
    telescopes [tels] have been read with [n] channels: its row when it is
    one of them and has a channel, nothing otherwise. *)
Definition rows_of (getter : Z → Z → value) (tels : list Z) (n : Z) (tel_id : Z)
  : option (dict Z value) :=
  if decide (tel_id ∈ tels ∧ (0 < n)%Z)
  then Some (channel_row (fun chan => getter chan tel_id) n) else None.

(** The container inside the loop over the telescopes of the event [ev]
    when those of [done] have been gone through. *)
Definition telescopes_read (ev : LibEvent) (done : list Z) (cont : Container) : Prop :=
  keys (pixel_pos cont) = keys (num_channels cont) ∧
  (∀ t, t ∈ done → t ∈ keys (pixel_pos cont)) ∧
  is_Some (sampledata cont) ∧ is_Some (sumdata cont) ∧
  ∀ t,
    dict_get (default [] (sampledata cont)) t
    = rows_of (get_adc_sample ev) done (default 0%Z (dict_get (num_channels cont) t)) t ∧
    dict_get (default [] (sumdata cont)) t
    = rows_of (get_adc_sum ev) done (default 0%Z (dict_get (num_channels cont) t)) t.

End Hessio.

(** ** Vocabulary of the specification *)

(** The names of the input slots, in declared order.  An ONNX graph names
    each of its inputs once. *)
Definition input_names (m : ONNXModel.t) : list string :=
  name <$> ONNXModel.inputs m.
Definition schema_wf (m : ONNXModel.t) : Prop := NoDup (input_names m).

(** The named arguments that stand for the positional ones: each value
    under the name of the slot at its position. *)
Definition as_named (m : ONNXModel.t) (args : list value) : dict string value :=
  zip (input_names m) args.

(** A value that [len] accepts. *)
Definition has_len (v : value) : Prop := ∃ n, len v = Return n.

(** What the backend is fed for a supplied value: a single-precision copy of
    a double-precision array, anything else as it is. *)
Definition fed (v : value) : value :=
  match v with
  | VArray a => if decide (arr_dtype a = float64) then VArray (astype_float32 a) else v
  | _ => v
  end.

(** The camera that the array description gives for a telescope. *)
Definition camera_of (subarray : SubarrayDescription) (tel_id : Z) : option string :=
  (fun t => camera_name (geometry (camera t))) <$> tel subarray !! tel_id.

(** The inputs of the telescopes that carry a given camera, in the order of
    the input mapping. *)
Definition routed (subarray : SubarrayDescription) (cam_name : string)
    (tels_dict : dict Z value) : list value :=
  (filter (fun x => camera_of subarray x.1 = Some cam_name) tels_dict).*2.

(** One turn of the loop over the supported cameras, with the appends of
    lines 162-169 taken together. *)
Definition camera_step (self : DeepLearningReconstructor.t) (tels_dict : dict Z value)
    (subarray : SubarrayDescription) (predictions : PredictionBatch)
    (cam_name : string) : result PredictionBatch :=
  match dict_get (DeepLearningReconstructor.models self) cam_name with
  | None => Return predictions
  | Some model =>
      inps ← DeepLearningReconstructor.obs_inputs tels_dict subarray cam_name;
      outs ← comprehension (DeepLearningReconstructor.call_model model) inps;
      Return (dict_set predictions cam_name outs)
  end.

(** ** Concrete models and inputs *)

Module Fixtures.

(** A backend that returns the fed values in the declared order and
    rejects a feed that misses a declared input. *)
Definition echo_session (names : list string) : InferenceSession :=
  {| get_inputs := (fun n => {| name := n |}) <$> names;
     get_outputs := (fun n => {| name := n |}) <$> names;
     run := fun feed =>
       comprehension (fun n => match dict_get feed n with
                               | Some v => Return v
                               | None => Raise (BackendError 0)
                               end) names |}.

Definition echo_model (names : list string) : ONNXModel.t :=
  {| ONNXModel.sess := echo_session names |}.

(** 1.5 as a double *)
Definition one_and_a_half : element :=
  EFloat (SpecFloat.S754_finite false 6755399441055744 (-52)).

(** [np.full(n, 1.5)] and [np.full(n, 1.5, dtype=np.float32)] *)
Definition doubles (n : nat) : value :=
  VArray {| arr_dtype := float64; arr_shape := [n];
            arr_data := replicate n one_and_a_half |}.
Definition singles (n : nat) : value :=
  VArray {| arr_dtype := float32; arr_shape := [n];
            arr_data := replicate n (narrow one_and_a_half) |}.

Definition telescope (cam : string) : TelescopeDescription :=
  {| camera := {| geometry := {| camera_name := cam |} |} |}.

(** Telescopes 1 and 2 carry an LSTCam, telescope 3 a FlashCam. *)
Definition array_lst_lst_flash : SubarrayDescription :=
  {| tel := list_to_map [(1%Z, telescope "LSTCam"); (2%Z, telescope "LSTCam");
                         (3%Z, telescope "FlashCam")] |}.

Definition lst_flash_nectar : ReconstructorVariant (list (list value)) :=
  {| supported_cameras := ["LSTCam"; "FlashCam"; "NectarCam"]%string;
     _reconstruct := fun predictions => Return (concat (values predictions)) |}.

Definition lst_only : DeepLearningReconstructor.t :=
  {| DeepLearningReconstructor.models := [("LSTCam"%string, echo_model ["x"%string])] |}.

(** A reconstructor whose LSTCam model takes two inputs, and one with a
    one-input model for each of two cameras. *)
Definition lst_two_inputs : DeepLearningReconstructor.t :=
  {| DeepLearningReconstructor.models :=
       [("LSTCam"%string, echo_model ["x"; "y"]%string)] |}.
Definition flash_and_lst : DeepLearningReconstructor.t :=
  {| DeepLearningReconstructor.models :=
       [("FlashCam"%string, echo_model ["x"%string]);
        ("LSTCam"%string, echo_model ["x"%string])] |}.

(** A store with a one-input model at 0, an array of doubles at 1 and the
    models dict of a reconstructor at 2. *)
Definition store_model_array : gmap Heap.loc Heap.cell :=
  list_to_map [(0, Heap.CModel (echo_model ["x"%string]));
               (1, Heap.CValue (doubles 3));
               (2, Heap.CRegistry [("LSTCam"%string, 0)])].

(** A store with a two-input model at 0 and two equal arrays at 1 and 2. *)
Definition store_two_arrays : gmap Heap.loc Heap.cell :=
  list_to_map [(0, Heap.CModel (echo_model ["x"; "y"]%string));
               (1, Heap.CValue (doubles 3));
               (2, Heap.CValue (doubles 3))].

(** A file of three events: telescope 1 has data in the first and the
    third, telescope 2 in the second and the third; telescope 1 has two
    channels in the first event and one afterwards. *)
Definition lib_event (event_id : Z) (tels : list Z) (channels : Z) : Hessio.LibEvent :=
  {| Hessio.lib_run_id := 31964;
     Hessio.lib_event_id := event_id;
     Hessio.get_teldata_list := tels;
     Hessio.get_pixel_position := fun tel_id => VNum (EInt (tel_id + 10 * event_id));
     Hessio.get_num_channel := fun _ => channels;
     Hessio.get_adc_sample := fun chan tel_id => VNum (EInt (100 * event_id + chan));
     Hessio.get_adc_sum := fun chan tel_id => VNum (EInt (200 * event_id + chan)) |}.
Definition three_events : Hessio.File :=
  {| Hessio.file_open := 0;
     Hessio.move_to_next_event :=
       [lib_event 408 [1%Z] 2; lib_event 409 [2%Z] 1; lib_event 803 [1%Z; 2%Z] 1] |}.

(** The same supported cameras declared in another order, one of them
    twice. *)
Definition flash_lst_nectar_flash : ReconstructorVariant (list (list value)) :=
  {| supported_cameras := ["FlashCam"; "LSTCam"; "NectarCam"; "FlashCam"]%string;
     _reconstruct := fun predictions => Return (concat (values predictions)) |}.

(** Opening a file: only the two files below hold a model. *)
Definition open_file (path : string) : result InferenceSession :=
  if decide (path = "lst.onnx"%string ∨ path = "flash.onnx"%string)
  then Return (echo_session ["x"%string])
  else Raise RuntimeError.

End Fixtures.

(** * Properties *)

(** ** The result monad and loops *)

Lemma bind_eq_Return {A B : Type} (c : result A) (f : A → result B) (b : B) :
  (c ≫= f) = Return b ↔ ∃ a, c = Return a ∧ f a = Return b.
Proof.
  destruct c as [a|e]; simpl.
  - split; [eauto | intros (a' & [= <-] & ?); done].
  - split; [done | intros (a' & [=] & _)].
Qed.

Lemma for_each_ext {A S : Type} (f g : S → A → result S) (xs : list A) (s : S) :
  (∀ s x, x ∈ xs → f s x = g s x) → for_each f xs s = for_each g xs s.
Proof.
  revert s. induction xs as [|x xs IH]; intros s Hfg; simpl; [done|].
  rewrite Hfg by left. destruct (g s x); simpl; [|done].
  apply IH. intros. apply Hfg. by right.
Qed.

Lemma comprehension_Return {A B : Type} (f : A → result B) (xs : list A) (ys : list B) :
  comprehension f xs = Return ys ↔ Forall2 (fun x y => f x = Return y) xs ys.
Proof.
  revert ys. induction xs as [|x xs IH]; intros ys; simpl.
  - split; [intros [= <-]; constructor | by inversion 1].
  - split.
    + intros (y & Hy & (ys' & Hys & [= <-])%bind_eq_Return)%bind_eq_Return.
      constructor; [done | by apply IH].
    + inversion 1 as [|? y ? ys' Hy Hys]; subst.
      rewrite Hy; simpl. apply IH in Hys. by rewrite Hys.
Qed.

Lemma comprehension_ext {A B : Type} (f g : A → result B) (xs : list A) :
  (∀ x, x ∈ xs → f x = g x) → comprehension f xs = comprehension g xs.
Proof.
  induction xs as [|x xs IH]; intros Hfg; simpl; [done|].
  rewrite Hfg by left. rewrite IH; [done|]. intros. apply Hfg. by right.
Qed.

(** ** Dicts *)

Section dict_lemmas.
Context {K V : Type} `{EqDecision K}.
Implicit Types (d : dict K V) (k : K) (v : V).

Lemma dict_get_None d k : dict_get d k = None ↔ k ∉ keys d.
Proof.
  unfold keys. induction d as [|[k' v'] d IH]; csimpl.
  - split; [intros _; apply not_elem_of_nil | done].
  - rewrite not_elem_of_cons. case_decide as Hk; subst.
    + split; [done | by intros [? _]].
    + rewrite IH. split; [by split | by intros [_ ?]].
Qed.

Lemma dict_get_elem d k v : dict_wf d → (k, v) ∈ d → dict_get d k = Some v.
Proof.
  unfold dict_wf, keys.
  induction d as [|[k' v'] d IH]; csimpl; [by intros _ ?%elem_of_nil|].
  rewrite NoDup_cons. intros [Hk Hd] [[= -> ->]|Hin]%elem_of_cons.
  - by rewrite decide_True.
  - rewrite decide_False; [auto|].
    intros ->. apply Hk. apply list_elem_of_fmap. by exists (k, v).
Qed.

Lemma dict_set_fresh d k v : k ∉ keys d → dict_set d k v = d ++ [(k, v)].
Proof.
  induction d as [|[k' v'] d IH]; csimpl; [done|].
  rewrite not_elem_of_cons. intros [Hne Hk].
  rewrite decide_False by done. by rewrite IH.
Qed.

Lemma dict_get_set_eq d k v : dict_get (dict_set d k v) k = Some v.
Proof.
  induction d as [|[k' v'] d IH]; csimpl.
  - by rewrite decide_True.
  - case_decide; csimpl; [by rewrite decide_True | by rewrite decide_False].
Qed.

Lemma dict_get_set_ne d k k' v : k ≠ k' → dict_get (dict_set d k v) k' = dict_get d k'.
Proof.
  intros Hne. induction d as [|[k0 v0] d IH]; csimpl.
  - by rewrite decide_False.
  - case_decide; subst; csimpl.
    + by rewrite !decide_False.
    + by rewrite IH.
Qed.

Lemma dict_set_set d k v v' : dict_set (dict_set d k v) k v' = dict_set d k v'.
Proof.
  induction d as [|[k0 v0] d IH]; csimpl.
  - by rewrite decide_True.
  - case_decide; csimpl; [by rewrite decide_True | by rewrite decide_False, IH].
Qed.

Lemma elem_of_keys_dict_set d k k' v :
  k' ∈ keys (dict_set d k v) ↔ k' = k ∨ k' ∈ keys d.
Proof.
  unfold keys. induction d as [|[k0 v0] d IH]; csimpl.
  - rewrite list_elem_of_singleton. split; [auto | intros [?|?%elem_of_nil]; done].
  - case_decide; subst; csimpl; rewrite !elem_of_cons; [|rewrite IH]; naive_solver.
Qed.

Lemma dict_set_wf d k v : dict_wf d → dict_wf (dict_set d k v).
Proof.
  unfold dict_wf. induction d as [|[k0 v0] d IH]; csimpl.
  - intros _. apply NoDup_singleton.
  - unfold keys in *; csimpl. rewrite NoDup_cons. intros [Hk Hd].
    case_decide; subst; csimpl.
    + by apply NoDup_cons.
    + apply NoDup_cons. split; [|auto].
      intros [?|?]%(elem_of_keys_dict_set d k k0 v); done.
Qed.

End dict_lemmas.

Lemma getitem_set_eq {V : Type} (d : dict string V) (k : string) (v : V) :
  getitem (dict_set d k v) k = Return v.
Proof. unfold getitem. by rewrite dict_get_set_eq. Qed.

(** ** ONNXModel.predict: the argument checks *)

Section check_arguments.
Context {A : Type}.
Implicit Types (m : ONNXModel.t) (args : list A) (kwargs : dict string A).

Lemma check_arguments_none m :
  ONNXModel.check_arguments m (@nil A) [] = Raise (ValueError MsgAtLeastOne).
Proof. reflexivity. Qed.

Lemma check_arguments_both m args kwargs :
  args ≠ [] → kwargs ≠ [] →
  ONNXModel.check_arguments m args kwargs = Raise (ValueError MsgNamedAndOrdered).
Proof.
  intros Ha Hk. unfold ONNXModel.check_arguments.
  by destruct args, kwargs.
Qed.

(** The checks pass exactly when one kind of argument is given and one of
    the two counts is the number of inputs. *)
Lemma check_arguments_Return m args kwargs :
  ONNXModel.check_arguments m args kwargs = Return () ↔
  ((args = [] ∧ kwargs ≠ []) ∨ (args ≠ [] ∧ kwargs = [])) ∧
  (length kwargs = length (ONNXModel.inputs m) ∨
   length args = length (ONNXModel.inputs m)).
Proof.
  unfold ONNXModel.check_arguments.
  repeat case_decide; split; try done.
  - intros [[[Ha Hk]|[Ha Hk]] _]; destruct args, kwargs; simpl in *; try done; lia.
  - intros [[[Ha Hk]|[Ha Hk]] _]; destruct args, kwargs; simpl in *; try done; lia.
  - intros [_ ?]; lia.
  - intros _. split; [|lia].
    destruct args, kwargs; simpl in *; try lia; [left | right]; done.
Qed.

(** With as many arguments of one kind as the model has inputs, and at
    least one, the checks pass. *)
Lemma check_arguments_positional m args :
  args ≠ [] → length args = length (ONNXModel.inputs m) →
  ONNXModel.check_arguments m args [] = Return ().
Proof. intros. apply check_arguments_Return. split; [right | right]; done. Qed.

Lemma check_arguments_named m kwargs :
  kwargs ≠ [] → length kwargs = length (ONNXModel.inputs m) →
  ONNXModel.check_arguments m [] kwargs = Return ().
Proof. intros. apply check_arguments_Return. split; [left | left]; done. Qed.

(** A count of one kind that differs from a non-zero number of inputs is
    reported as such. *)
Lemma check_arguments_count m args kwargs :
  (args = [] ∧ kwargs ≠ []) ∨ (args ≠ [] ∧ kwargs = []) →
  length (ONNXModel.inputs m) ≠ 0 →
  length args + length kwargs ≠ length (ONNXModel.inputs m) →
  ONNXModel.check_arguments m args kwargs =
    Raise (ValueError (MsgArgumentCount (length args + length kwargs)
                                        (length (ONNXModel.inputs m)))).
Proof.
  intros Hone HN Hcount. unfold ONNXModel.check_arguments.
  destruct Hone as [[-> Hk]|[Ha ->]]; simpl in *.
  - destruct kwargs; [done|]. simpl in *.
    case_decide as Hc; [done|]. exfalso. apply Hc. split; lia.
  - destruct args; [done|]. simpl in *.
    case_decide as Hc; [|exfalso; apply Hc; split; lia].
    do 3 f_equal. lia.
Qed.

End check_arguments.

(** C3: a call of [predict] with no argument at all, or with both
    positional and named arguments, fails with InvalidArgumentUsageError,
    whatever the model and the values. *)
Theorem predict_invalid_usage (m : ONNXModel.t) (args : list value)
    (kwargs : dict string value) :
  (args = [] ∧ kwargs = []) ∨ (args ≠ [] ∧ kwargs ≠ []) →
  fails_with (ONNXModel.predict m args kwargs) InvalidArgumentUsageError.
Proof.
  unfold ONNXModel.predict. intros [[-> ->]|[Ha Hk]].
  - rewrite check_arguments_none. by eexists.
  - rewrite check_arguments_both by done. by eexists.
Qed.

Lemma predict_invalid_usage_witness :
  fails_with (ONNXModel.predict (Fixtures.echo_model ["x"%string]) [] [])
             InvalidArgumentUsageError ∧
  fails_with (ONNXModel.predict (Fixtures.echo_model ["x"%string])
                [Fixtures.doubles 3] [("x"%string, Fixtures.doubles 3)])
             InvalidArgumentUsageError.
Proof.
  split.
  - apply predict_invalid_usage. left. split; reflexivity.
  - apply predict_invalid_usage. right. split; discriminate.
Defined.

(** A wrong count for a model that has inputs is an ArityMismatchError. *)
Lemma predict_arity_mismatch (m : ONNXModel.t) (args : list value)
    (kwargs : dict string value) :
  (args = [] ∧ kwargs ≠ []) ∨ (args ≠ [] ∧ kwargs = []) →
  length (ONNXModel.inputs m) ≠ 0 →
  length args + length kwargs ≠ length (ONNXModel.inputs m) →
  fails_with (ONNXModel.predict m args kwargs) ArityMismatchError.
Proof.
  intros. unfold ONNXModel.predict.
  rewrite check_arguments_count by done. by eexists.
Qed.

(** On a model without inputs every positional call passes the count check,
    binds nothing and stops at the length check. *)
Lemma predict_no_inputs_positional (m : ONNXModel.t) (args : list value) :
  ONNXModel.inputs m = [] → args ≠ [] →
  ONNXModel.check_arguments m args [] = Return () ∧
  ONNXModel.predict m args [] = Raise (ValueError MsgSameLength).
Proof.
  intros Hm Ha.
  assert (Hchk : ONNXModel.check_arguments m args [] = Return ()).
  { apply check_arguments_Return. rewrite Hm. split; [by right | by left]. }
  split; [done|]. unfold ONNXModel.predict. rewrite Hchk. simpl.
  unfold ONNXModel.bind_positional. rewrite Hm. simpl.
  by destruct (decide (length args ≠ 0)).
Qed.

(** C4: on a model without inputs the count check lets any call of one kind
    through.  A positional call then binds nothing and stops at the length
    check; a named call goes on to the backend. *)
Theorem predict_no_inputs_arity :
  ONNXModel.predict (Fixtures.echo_model []) [Fixtures.doubles 3] []
    = Raise (ValueError MsgSameLength) ∧
  ¬ fails_with (ONNXModel.predict (Fixtures.echo_model []) [Fixtures.doubles 3] [])
               ArityMismatchError ∧
  ONNXModel.predict (Fixtures.echo_model []) [] [("x"%string, Fixtures.doubles 3)]
    = Return [].
Proof.
  split; [reflexivity|]. split; [|reflexivity].
  intros (e & [= <-] & [=]).
Qed.

(** ** ONNXModel.predict: positional arguments take the slot names *)

Lemma bind_positional_named (m : ONNXModel.t) (kwargs : dict string value) :
  ONNXModel.bind_positional m [] kwargs = Return kwargs.
Proof. reflexivity. Qed.

Lemma bind_positional_loop (m : ONNXModel.t) (args : list value) (n k : nat)
    (d : dict string value) :
  k + n = length (ONNXModel.inputs m) →
  length args = length (ONNXModel.inputs m) →
  NoDup (keys d ++ drop k (input_names m)) →
  for_each (fun kwargs i =>
              match ONNXModel.inputs m !! i, args !! i with
              | Some inp, Some a => Return (dict_set kwargs (name inp) a)
              | _, _ => Raise IndexError
              end) (seq k n) d
  = Return (d ++ zip (drop k (input_names m)) (drop k args)).
Proof.
  revert k d. induction n as [|n IH]; intros k d Hk Hlen Hnd; simpl.
  - rewrite (drop_ge (input_names m)) by (unfold input_names; rewrite length_fmap; lia).
    simpl. by rewrite app_nil_r.
  - destruct (lookup_lt_is_Some_2 (ONNXModel.inputs m) k) as [inp Hinp]; [lia|].
    destruct (lookup_lt_is_Some_2 args k) as [a Ha]; [lia|].
    rewrite Hinp, Ha. simpl.
    assert (Hdrop : drop k (input_names m) = name inp :: drop (S k) (input_names m)).
    { apply drop_S. unfold input_names. by rewrite list_lookup_fmap, Hinp. }
    rewrite Hdrop in Hnd |- *. rewrite (drop_S _ _ _ Ha). simpl.
    apply NoDup_app in Hnd as (Hd & Hdisj & Hrest).
    rewrite dict_set_fresh by (intros Hin; apply (Hdisj _ Hin); left).
    rewrite IH; [by rewrite <- app_assoc | lia | done |].
    unfold keys in *. rewrite fmap_app, <- app_assoc. simpl.
    apply NoDup_app. split_and!; [done | | done].
    intros x Hx. by apply Hdisj.
Qed.

(** A full list of positional arguments is bound to the slot names in
    declared order. *)
Lemma bind_positional_full (m : ONNXModel.t) (args : list value) :
  schema_wf m → args ≠ [] → length args = length (ONNXModel.inputs m) →
  ONNXModel.bind_positional m args [] = Return (as_named m args).
Proof.
  intros Hwf Hne Hlen. unfold ONNXModel.bind_positional.
  rewrite decide_True by (by destruct args).
  by rewrite (bind_positional_loop m args _ 0 []).
Qed.

(** C2 (as amended): with as many values as the model has input slots, the
    positional call and the named call under the slot names have the same
    outcome, the outputs of the backend or the same exception; when there
    is at least one slot, both pass the checks on the arguments. *)
Theorem predict_positional_named (m : ONNXModel.t) (args : list value) :
  schema_wf m → length args = length (ONNXModel.inputs m) →
  ONNXModel.predict m args [] = ONNXModel.predict m [] (as_named m args) ∧
  (args ≠ [] →
   ONNXModel.check_arguments m args [] = Return () ∧
   ONNXModel.check_arguments m [] (as_named m args) = Return ()).
Proof.
  intros Hwf Hlen.
  assert (Hnamed : length (as_named m args) = length (ONNXModel.inputs m)).
  { unfold as_named, input_names. rewrite length_zip, length_fmap. lia. }
  destruct (decide (args = [])) as [->|Hne].
  - split; [|done]. destruct (as_named m []) eqn:E; [done|].
    simpl in *. rewrite <- Hlen in Hnamed. done.
  - assert (Hne' : as_named m args ≠ []).
    { intros E. rewrite E in Hnamed. destruct args; [done|]. simpl in *. lia. }
    split; [|intros _; split;
             [by apply check_arguments_positional | by apply check_arguments_named]].
    unfold ONNXModel.predict.
    rewrite check_arguments_positional, check_arguments_named by done.
    by rewrite bind_positional_full, bind_positional_named by done.
Qed.

Lemma predict_positional_named_witness :
  schema_wf (Fixtures.echo_model ["x"; "y"]%string) ∧
  ONNXModel.predict (Fixtures.echo_model ["x"; "y"]%string)
    [Fixtures.doubles 3; Fixtures.singles 3] []
  = ONNXModel.predict (Fixtures.echo_model ["x"; "y"]%string) []
      [("x"%string, Fixtures.doubles 3); ("y"%string, Fixtures.singles 3)].
Proof.
  assert (Hwf : schema_wf (Fixtures.echo_model ["x"; "y"]%string)).
  { apply (bool_decide_unpack _). vm_compute. exact I. }
  split; [exact Hwf|].
  apply (predict_positional_named (Fixtures.echo_model ["x"; "y"]%string)
           [Fixtures.doubles 3; Fixtures.singles 3] Hwf eq_refl).
Defined.

(** C2 (as stated) fails: two values of lengths 3 and 4 for a model with
    two inputs do not make a successful positional call. *)
Lemma predict_positional_fails :
  ¬ succeeds (ONNXModel.predict (Fixtures.echo_model ["x"; "y"]%string)
                [Fixtures.doubles 3; Fixtures.doubles 4] []).
Proof. intros [outs [=]]. Qed.

(** ** ONNXModel.predict: the length check *)

Lemma comprehension_fmap {A B C : Type} (g : A → B) (f : B → result C) (xs : list A) :
  comprehension f (g <$> xs) = comprehension (f ∘ g) xs.
Proof. induction xs as [|x xs IH]; csimpl; [done | by rewrite IH]. Qed.

(** On a dict, looking every key up gives the values in order. *)
Lemma lengths_of_values (kw : dict string value) :
  dict_wf kw →
  comprehension (fun name => v ← getitem kw name; len v) (keys kw)
  = comprehension len (values kw).
Proof.
  intros Hwf. unfold keys, values. rewrite !comprehension_fmap.
  apply comprehension_ext. intros [k v] Hin. simpl.
  unfold getitem. by rewrite (dict_get_elem kw k v).
Qed.

(** [len(set(ns)) == 1] says that [ns] is not empty and holds one number. *)
Lemma remove_dups_singleton (ns : list nat) :
  length (remove_dups ns) = 1 ↔ ns ≠ [] ∧ ∃ n, Forall (fun x => x = n) ns.
Proof.
  split.
  - intros Hlen. destruct (remove_dups ns) as [|n [|? ?]] eqn:E; try done.
    split; [by intros -> |]. exists n. apply Forall_forall. intros x Hx.
    apply elem_of_remove_dups in Hx. rewrite E in Hx.
    by apply list_elem_of_singleton in Hx.
  - intros [Hne [n Hall]]. induction Hall as [|x ns -> Hall IH]; [done|].
    simpl. destruct ns as [|y ns]; [done|].
    destruct (decide_rel elem_of n (y :: ns)) as [_|Hn]; [by apply IH|].
    exfalso. apply Hn. inversion Hall; subst. left.
Qed.

Lemma check_lengths_Return (kw : dict string value) :
  dict_wf kw →
  ONNXModel.check_lengths kw = Return () ↔
  kw ≠ [] ∧ ∃ n, Forall (fun v => len v = Return n) (values kw).
Proof.
  intros Hwf. unfold ONNXModel.check_lengths. rewrite lengths_of_values by done.
  split.
  - intros (ns & Hns & Hif)%bind_eq_Return. case_decide as Hlen; [done|].
    apply remove_dups_singleton in Hlen as [Hne [n Hall]].
    apply comprehension_Return in Hns. split.
    + intros ->. inversion Hns; by subst.
    + exists n. clear Hne Hif. induction Hns as [|v x vs ns Hv _ IH]; [done|].
      inversion Hall; subst. constructor; auto.
  - intros [Hne [n Hall]].
    assert (Hns : comprehension len (values kw) = Return (replicate (length kw) n)).
    { apply comprehension_Return. unfold values in *. clear Hne Hwf.
      induction kw as [|[k v] kw IH]; csimpl in *; [constructor|].
      inversion Hall; subst. constructor; auto. }
    rewrite Hns. simpl. rewrite decide_False; [done|].
    intros Hlen. apply Hlen. apply remove_dups_singleton. split.
    + by destruct kw.
    + exists n. apply Forall_forall. by intros x [-> _]%elem_of_replicate.
Qed.

(** When every value has a length, two different lengths stop the call at
    the length check. *)
Lemma check_lengths_differ (kw : dict string value) (v1 v2 : value) (n1 n2 : nat) :
  dict_wf kw → Forall has_len (values kw) →
  v1 ∈ values kw → v2 ∈ values kw →
  len v1 = Return n1 → len v2 = Return n2 → n1 ≠ n2 →
  ONNXModel.check_lengths kw = Raise (ValueError MsgSameLength).
Proof.
  intros Hwf Hall H1 H2 Hn1 Hn2 Hne.
  pose proof (check_lengths_Return kw Hwf) as Hret.
  unfold ONNXModel.check_lengths in *. rewrite lengths_of_values in * by done.
  assert (∃ ns, comprehension len (values kw) = Return ns) as [ns Hns].
  { clear -Hall. induction Hall as [|v vs [n Hn] _ [ns IH]]; [by eexists|].
    exists (n :: ns). simpl. by rewrite Hn, IH. }
  rewrite Hns in *. simpl in *. case_decide as Hlen; [done|].
  destruct Hret as [(_ & n & Hsame) _]; [done|].
  rewrite Forall_forall in Hsame.
  rewrite (Hsame _ H1) in Hn1. rewrite (Hsame _ H2) in Hn2. congruence.
Qed.

(** [len] raises nothing but TypeError, so a value without a length stops
    the call with it. *)
Lemma len_raises (v : value) (e : exn) : len v = Raise e → e = TypeError.
Proof.
  destruct v as [a| | | |]; simpl; try done; [|by intros [= <-]].
  destruct (arr_shape a); [by intros [= <-] | done].
Qed.

Lemma check_lengths_unsized (kw : dict string value) (v : value) :
  dict_wf kw → v ∈ values kw → ¬ has_len v →
  ONNXModel.check_lengths kw = Raise TypeError.
Proof.
  intros Hwf Hin Hno. unfold ONNXModel.check_lengths.
  rewrite lengths_of_values by done.
  assert (Hraise : comprehension len (values kw) = Raise TypeError); [|by rewrite Hraise].
  induction (values kw) as [|v' vs IH]; [by apply elem_of_nil in Hin|].
  simpl. destruct (len v') as [n|e] eqn:Hlen; simpl.
  - apply elem_of_cons in Hin as [->|Hin]; [exfalso; apply Hno; by exists n|].
    by rewrite IH.
  - by rewrite (len_raises v' e Hlen).
Qed.

(** ** ONNXModel.predict: the conversion to single precision *)

Lemma dict_get_middle {K V : Type} `{EqDecision K} (pre suf : dict K V) (k : K) (v : V) :
  k ∉ keys pre → dict_get (pre ++ (k, v) :: suf) k = Some v.
Proof.
  unfold keys. induction pre as [|[k' v'] pre IH]; csimpl.
  - intros _. by rewrite decide_True.
  - rewrite not_elem_of_cons. intros [? ?]. rewrite decide_False by done. auto.
Qed.

Lemma dict_set_middle {K V : Type} `{EqDecision K} (pre suf : dict K V) (k : K)
    (v v' : V) :
  k ∉ keys pre → dict_set (pre ++ (k, v) :: suf) k v' = pre ++ (k, v') :: suf.
Proof.
  unfold keys. induction pre as [|[k0 v0] pre IH]; csimpl.
  - intros _. by rewrite decide_True.
  - rewrite not_elem_of_cons. intros [? ?]. rewrite decide_False by done.
    by rewrite IH.
Qed.

Lemma convert_inputs_loop (pre suf : dict string value) :
  dict_wf (pre ++ suf) →
  for_each (fun kwargs name =>
              inp ← getitem kwargs name;
              match inp with
              | VArray a =>
                  if decide (arr_dtype a = float64) then
                    Return (dict_set kwargs name (VArray (astype_float32 a)))
                  else Return kwargs
              | _ => Return kwargs
              end)
           (keys suf) (pre ++ suf)
  = Return (pre ++ (prod_map id fed <$> suf)).
Proof.
  revert pre. induction suf as [|[k v] suf IH]; intros pre Hwf; csimpl; [done|].
  assert (Hk : k ∉ keys pre).
  { unfold dict_wf, keys in *. rewrite fmap_app in Hwf.
    apply NoDup_app in Hwf as (_ & Hdisj & _). intros Hin.
    apply (Hdisj _ Hin). csimpl. left. }
  unfold getitem. rewrite dict_get_middle by done. simpl.
  assert (Hstep : ∀ v', dict_wf ((pre ++ [(k, v')]) ++ suf)).
  { intros v'. unfold dict_wf, keys in *. rewrite <- app_assoc.
    by rewrite !fmap_app in *. }
  specialize (IH (pre ++ [(k, fed v)]) (Hstep _)).
  rewrite <- !app_assoc in IH. simpl in IH.
  destruct v as [a| | | |]; simpl in *; try exact IH.
  destruct (decide (arr_dtype a = float64)); simpl;
    [rewrite dict_set_middle by done|]; exact IH.
Qed.

(** The loop never raises and replaces each value by what is fed for it;
    names and order stay. *)
Lemma convert_inputs_fed (kw : dict string value) :
  dict_wf kw → ONNXModel.convert_inputs kw = Return (prod_map id fed <$> kw).
Proof. intros Hwf. apply (convert_inputs_loop [] kw Hwf). Qed.

(** The dict that the body works on is a dict. *)
Lemma bind_positional_wf (m : ONNXModel.t) (args : list value)
    (kwargs kw : dict string value) :
  dict_wf kwargs → ONNXModel.bind_positional m args kwargs = Return kw → dict_wf kw.
Proof.
  unfold ONNXModel.bind_positional. case_decide; [|by intros ? [= <-]].
  generalize (seq 0 (length (ONNXModel.inputs m))). intros idx. revert kwargs.
  induction idx as [|i idx IH]; intros kwargs Hwf; simpl; [by intros [= <-]|].
  destruct (ONNXModel.inputs m !! i), (args !! i); simpl; try done.
  apply IH. by apply dict_set_wf.
Qed.

(** The values that the body works on are the supplied ones when their
    count is the number of inputs. *)
Lemma bound_values (m : ONNXModel.t) (args : list value) (kwargs : dict string value) :
  schema_wf m → dict_wf kwargs →
  ONNXModel.check_arguments m args kwargs = Return () →
  length args + length kwargs = length (ONNXModel.inputs m) →
  ∃ kw, ONNXModel.bind_positional m args kwargs = Return kw ∧
        dict_wf kw ∧ kw ≠ [] ∧ values kw = args ++ values kwargs.
Proof.
  intros Hm Hwf [Hone _]%check_arguments_Return Hcount.
  destruct Hone as [[-> Hk]|[Ha ->]].
  - exists kwargs. by rewrite bind_positional_named.
  - simpl in Hcount. rewrite Nat.add_0_r in Hcount.
    exists (as_named m args). rewrite bind_positional_full by done.
    assert (Hlen : length (input_names m) = length args).
    { unfold input_names. rewrite length_fmap. lia. }
    split_and!; [done | | |].
    + unfold dict_wf, keys, as_named. rewrite fst_zip by lia. apply Hm.
    + unfold as_named. destruct args, (input_names m); done.
    + unfold values, as_named. rewrite snd_zip by lia. simpl. by rewrite app_nil_r.
Qed.

(** C5 (as amended): for a call with as many arguments of one kind as the
    model has inputs, a supplied value without a length ends the call with
    the TypeError of [len]; when all of them have a length, two different
    lengths make the call fail with BatchSizeMismatchError; with one common
    length the length check returns and the outcome of the call is that of
    the backend. *)
Theorem predict_batch_size (m : ONNXModel.t) (args : list value)
    (kwargs : dict string value) :
  schema_wf m → dict_wf kwargs →
  ONNXModel.check_arguments m args kwargs = Return () →
  length args + length kwargs = length (ONNXModel.inputs m) →
  ((∃ v, v ∈ args ++ values kwargs ∧ ¬ has_len v) →
   ONNXModel.predict m args kwargs = Raise TypeError) ∧
  (Forall has_len (args ++ values kwargs) →
   (∃ v1 v2 n1 n2, v1 ∈ args ++ values kwargs ∧ v2 ∈ args ++ values kwargs ∧
                   len v1 = Return n1 ∧ len v2 = Return n2 ∧ n1 ≠ n2) →
   ONNXModel.predict m args kwargs = Raise (ValueError MsgSameLength) ∧
   fails_with (ONNXModel.predict m args kwargs) BatchSizeMismatchError) ∧
  ((∃ n, Forall (fun v => len v = Return n) (args ++ values kwargs)) →
   ∃ kw, ONNXModel.bind_positional m args kwargs = Return kw ∧
         ONNXModel.check_lengths kw = Return () ∧
         ONNXModel.predict m args kwargs
         = run (ONNXModel.sess m) (prod_map id fed <$> kw)).
Proof.
  intros Hm Hwf Hchk Hcount.
  destruct (bound_values m args kwargs Hm Hwf Hchk Hcount)
    as (kw & Hbind & Hkw & Hne & Hvals).
  unfold ONNXModel.predict. rewrite Hchk, Hbind. simpl. rewrite <- Hvals.
  split_and!.
  - intros (v & Hin & Hno). by rewrite (check_lengths_unsized kw v).
  - intros Hall (v1 & v2 & n1 & n2 & H1 & H2 & Hn1 & Hn2 & Hdiff).
    rewrite (check_lengths_differ kw v1 v2 n1 n2) by done.
    split; [done | by eexists].
  - intros Hsame. exists kw.
    assert (Hlen : ONNXModel.check_lengths kw = Return ()).
    { by apply check_lengths_Return. }
    rewrite Hlen. simpl. by rewrite convert_inputs_fed.
Qed.

Lemma predict_batch_size_witness :
  fails_with (ONNXModel.predict (Fixtures.echo_model ["x"; "y"]%string) []
                [("x"%string, Fixtures.doubles 3); ("y"%string, Fixtures.doubles 4)])
             BatchSizeMismatchError ∧
  ∃ kw, ONNXModel.bind_positional (Fixtures.echo_model ["x"; "y"]%string)
          [Fixtures.doubles 3; Fixtures.singles 3] [] = Return kw ∧
        ONNXModel.check_lengths kw = Return () ∧
        ONNXModel.predict (Fixtures.echo_model ["x"; "y"]%string)
          [Fixtures.doubles 3; Fixtures.singles 3] []
        = run (ONNXModel.sess (Fixtures.echo_model ["x"; "y"]%string))
              (prod_map id fed <$> kw).
Proof.
  assert (Hwf : schema_wf (Fixtures.echo_model ["x"; "y"]%string)).
  { apply (bool_decide_unpack _). vm_compute. exact I. }
  split.
  - assert (Hd : dict_wf [("x"%string, Fixtures.doubles 3);
                          ("y"%string, Fixtures.doubles 4)]).
    { apply (bool_decide_unpack _). vm_compute. exact I. }
    apply (predict_batch_size _ [] _ Hwf Hd eq_refl eq_refl).
    + repeat constructor; eexists; reflexivity.
    + exists (Fixtures.doubles 3), (Fixtures.doubles 4), 3, 4.
      split_and!; [left | right; left | reflexivity | reflexivity | lia].
  - assert (Hd : dict_wf (@nil (string * value))) by constructor.
    apply (predict_batch_size _ [Fixtures.doubles 3; Fixtures.singles 3] []
             Hwf Hd eq_refl eq_refl).
    exists 3. repeat constructor.
Defined.

(** C5 (as stated) fails: three named inputs pass the checks on the
    arguments, two of them are arrays of lengths 3 and 4, and the call ends
    in the TypeError of [len] on the third, a plain number. *)
Lemma predict_batch_size_unsized :
  let m := Fixtures.echo_model ["x"; "y"; "z"]%string in
  let kwargs := [("x"%string, Fixtures.doubles 3); ("y"%string, Fixtures.doubles 4);
                 ("z"%string, VNum (EInt 5))] in
  ONNXModel.check_arguments m [] kwargs = Return () ∧
  len (Fixtures.doubles 3) = Return 3 ∧ len (Fixtures.doubles 4) = Return 4 ∧
  ONNXModel.predict m [] kwargs = Raise TypeError ∧
  ¬ fails_with (ONNXModel.predict m [] kwargs) BatchSizeMismatchError.
Proof.
  simpl. split_and!; try reflexivity.
  intros (e & [= <-] & [=]).
Qed.

(** C7: in a call that passes the checks on the arguments and on the
    lengths, the loop over the inputs does not raise and the backend
    receives, under the same names in the same order, a single-precision
    array of the same shape for each double-precision array and every other
    value as it was supplied; what the call returns is what the backend
    returns. *)
Theorem predict_narrows_doubles (m : ONNXModel.t) (args : list value)
    (kwargs kw : dict string value) :
  dict_wf kwargs →
  ONNXModel.check_arguments m args kwargs = Return () →
  ONNXModel.bind_positional m args kwargs = Return kw →
  ONNXModel.check_lengths kw = Return () →
  ∃ feed,
    ONNXModel.convert_inputs kw = Return feed ∧
    ONNXModel.predict m args kwargs = run (ONNXModel.sess m) feed ∧
    keys feed = keys kw ∧
    (schema_wf m → values kw = args ++ values kwargs) ∧
    ∀ i k v, kw !! i = Some (k, v) →
      ∃ w, feed !! i = Some (k, w) ∧
           match v with
           | VArray a =>
               if decide (arr_dtype a = float64) then
                 ∃ a', w = VArray a' ∧ arr_dtype a' = float32 ∧
                       arr_shape a' = arr_shape a ∧
                       arr_data a' = narrow <$> arr_data a
               else w = v
           | _ => w = v
           end.
Proof.
  intros Hwf Hchk Hbind Hlen.
  assert (Hkw : dict_wf kw) by (by eapply bind_positional_wf).
  exists (prod_map id fed <$> kw). split_and!.
  - by apply convert_inputs_fed.
  - unfold ONNXModel.predict. rewrite Hchk, Hbind. simpl. rewrite Hlen. simpl.
    by rewrite convert_inputs_fed.
  - unfold keys. rewrite <- list_fmap_compose. by apply list_fmap_ext; intros ? [].
  - intros Hm. apply check_arguments_Return in Hchk as Hchk'.
    destruct Hchk' as [[[-> Hk]|[Ha ->]] Hcount].
    + rewrite bind_positional_named in Hbind. by injection Hbind as <-.
    + destruct (bound_values m args [] Hm Hwf Hchk) as (kw' & Hbind' & _ & _ & Hv).
      * destruct Hcount as [Hz|Hn]; [|simpl; lia].
        exfalso. unfold ONNXModel.bind_positional in Hbind.
        rewrite decide_True in Hbind by (by destruct args).
        simpl in Hz. rewrite <- Hz in Hbind. simpl in Hbind.
        injection Hbind as <-. done.
      * rewrite Hbind in Hbind'. by injection Hbind' as <-.
  - intros i k v Hi. exists (fed v). split.
    + by rewrite list_lookup_fmap, Hi.
    + destruct v as [a| | | |]; simpl; try done.
      case_decide; [|done]. by eexists.
Qed.

Lemma predict_narrows_doubles_witness :
  ∃ feed,
    ONNXModel.convert_inputs
      [("x"%string, Fixtures.doubles 3); ("y"%string, Fixtures.singles 3)]
    = Return feed ∧
    ONNXModel.predict (Fixtures.echo_model ["x"; "y"]%string) []
      [("x"%string, Fixtures.doubles 3); ("y"%string, Fixtures.singles 3)]
    = run (ONNXModel.sess (Fixtures.echo_model ["x"; "y"]%string)) feed ∧
    feed = [("x"%string, Fixtures.singles 3); ("y"%string, Fixtures.singles 3)].
Proof.
  assert (Hd : dict_wf [("x"%string, Fixtures.doubles 3);
                        ("y"%string, Fixtures.singles 3)]).
  { apply (bool_decide_unpack _). vm_compute. exact I. }
  destruct (predict_narrows_doubles (Fixtures.echo_model ["x"; "y"]%string) [] _ _
              Hd eq_refl eq_refl eq_refl) as (feed & Hconv & Hrun & _).
  exists feed. split_and!; [exact Hconv | exact Hrun |].
  vm_compute in Hconv. by injection Hconv as <-.
Defined.

(** ** DeepLearningReconstructor.__init__ *)

Section init.
Context {Shower : Type} `{!ReconstructorVariant Shower}.
Context (open : string → result InferenceSession).

(** One model is loaded per configured path, under the same camera names in
    the same order, when every file opens. *)
Lemma load_models_loop (models_paths : dict string string)
    (pre : dict string ONNXModel.t) :
  NoDup (keys pre ++ keys models_paths) →
  (∀ c p, (c, p) ∈ models_paths → succeeds (open p)) →
  ∃ new,
    for_each (fun models '(cam_name, path) =>
                m ← ONNXModel.__init__ open path;
                Return (dict_set models cam_name m))
             models_paths pre
    = Return (pre ++ new) ∧ keys new = keys models_paths.
Proof.
  revert pre. induction models_paths as [|[c p] paths IH]; intros pre Hnd Hopen.
  - exists []. by rewrite app_nil_r.
  - unfold keys in *. csimpl in *.
    destruct (Hopen c p) as [s Hs]; [left|].
    assert (Hinit : ONNXModel.__init__ open p = Return {| ONNXModel.sess := s |}).
    { unfold ONNXModel.__init__. by rewrite Hs. }
    rewrite Hinit. simpl.
    apply NoDup_app in Hnd as Hnd'. destruct Hnd' as (Hpre & Hdisj & _).
    rewrite dict_set_fresh by (intros Hin; apply (Hdisj _ Hin); left).
    destruct (IH (pre ++ [(c, {| ONNXModel.sess := s |})])) as (new & Hnew & Hkeys).
    + rewrite fmap_app, <- app_assoc. done.
    + intros c' p' Hin. apply (Hopen c' p'). by right.
    + exists ((c, {| ONNXModel.sess := s |}) :: new).
      rewrite Hnew, <- app_assoc. csimpl. by rewrite Hkeys.
Qed.

(** A file that does not open ends the construction. *)
Lemma init_not_loaded (super_init : result unit) (cam_name path : string)
    (rest : dict string string) :
  open path = Raise RuntimeError →
  DeepLearningReconstructor.__init__ open super_init ((cam_name, path) :: rest)
  = Raise (ValueError (MsgNotLoaded path)).
Proof.
  intros Hopen. unfold DeepLearningReconstructor.__init__. simpl.
  unfold ONNXModel.__init__. by rewrite Hopen.
Qed.

(** Every camera of a constructed reconstructor is a supported one. *)
Lemma init_supported (super_init : result unit) (models_paths : dict string string)
    (self : DeepLearningReconstructor.t) :
  DeepLearningReconstructor.__init__ open super_init models_paths = Return self →
  ∀ c, c ∈ keys (DeepLearningReconstructor.models self) → c ∈ supported_cameras.
Proof.
  unfold DeepLearningReconstructor.__init__.
  intros (models & _ & Hrest)%bind_eq_Return c Hc.
  case_decide as Hlen; [done|].
  apply bind_eq_Return in Hrest as (_ & _ & [= <-]). simpl in Hc.
  destruct (decide (c ∈ supported_cameras)) as [|Hno]; [done|].
  exfalso. apply Hlen.
  assert (Hin : c ∈ filter (fun cam_name => cam_name ∉ supported_cameras) (keys models)).
  { by apply list_elem_of_filter. }
  destruct (filter _ _); [by apply elem_of_nil in Hin | simpl; lia].
Qed.

(** C6 (as amended): when every configured model file opens, construction
    returns a reconstructor with the configured cameras if all of them are
    supported and the initialiser of the base class returns, and fails with
    UnsupportedCameraError otherwise, the message naming, in configuration
    order, the configured cameras that are not supported and only those. *)
Theorem init_checks_supported (super_init : result unit)
    (models_paths : dict string string) :
  dict_wf models_paths →
  (∀ c p, (c, p) ∈ models_paths → succeeds (open p)) →
  let unsupported :=
    filter (fun c => c ∉ supported_cameras) (keys models_paths) in
  ((∀ c, c ∈ keys models_paths → c ∈ supported_cameras) →
   super_init = Return () →
   ∃ self,
     DeepLearningReconstructor.__init__ open super_init models_paths = Return self ∧
     keys (DeepLearningReconstructor.models self) = keys models_paths) ∧
  ((∃ c, c ∈ keys models_paths ∧ c ∉ supported_cameras) →
   DeepLearningReconstructor.__init__ open super_init models_paths
   = Raise (ValueError (MsgNotSupported unsupported)) ∧
   fails_with (DeepLearningReconstructor.__init__ open super_init models_paths)
              UnsupportedCameraError ∧
   ∀ c, c ∈ unsupported ↔ c ∈ keys models_paths ∧ c ∉ supported_cameras).
Proof.
  intros Hwf Hopen unsupported.
  destruct (load_models_loop models_paths [] Hwf Hopen) as (models & Hload & Hkeys).
  simpl in Hload. unfold DeepLearningReconstructor.__init__.
  rewrite Hload. simpl. rewrite Hkeys. fold unsupported. split.
  - intros Hall ->.
    assert (Hnil : unsupported = []).
    { apply elem_of_nil_inv. intros c [Hno Hc]%list_elem_of_filter. auto. }
    rewrite Hnil. simpl. by eexists.
  - intros (c & Hc & Hno).
    assert (Hin : c ∈ unsupported) by (by apply list_elem_of_filter).
    rewrite decide_True.
    + split_and!; [done | by eexists |].
      intros c'. unfold unsupported. rewrite list_elem_of_filter. tauto.
    + destruct unsupported; [by apply elem_of_nil in Hin | simpl; lia].
Qed.

End init.

Lemma init_checks_supported_witness :
  (∃ self,
     @DeepLearningReconstructor.__init__ _ Fixtures.lst_flash_nectar
       Fixtures.open_file (Return ())
       [("LSTCam", "lst.onnx"); ("FlashCam", "flash.onnx")]%string = Return self ∧
     keys (DeepLearningReconstructor.models self) = ["LSTCam"; "FlashCam"]%string) ∧
  @DeepLearningReconstructor.__init__ _ Fixtures.lst_flash_nectar
       Fixtures.open_file (Return ())
    [("LSTCam", "lst.onnx"); ("CHEC", "flash.onnx")]%string
  = Raise (ValueError (MsgNotSupported ["CHEC"%string])).
Proof.
  split.
  - apply (@init_checks_supported _ Fixtures.lst_flash_nectar Fixtures.open_file (Return ())
             [("LSTCam", "lst.onnx"); ("FlashCam", "flash.onnx")]%string).
    + apply (bool_decide_unpack _). vm_compute. exact I.
    + intros c p Hin. repeat (apply elem_of_cons in Hin as [[= -> ->]|Hin]);
        [by eexists | by eexists | by apply elem_of_nil in Hin].
    + intros c Hin. apply (bool_decide_unpack _).
      repeat (apply elem_of_cons in Hin as [->|Hin]);
        [vm_compute; exact I | vm_compute; exact I | by apply elem_of_nil in Hin].
    + reflexivity.
  - apply (@init_checks_supported _ Fixtures.lst_flash_nectar Fixtures.open_file (Return ())
             [("LSTCam", "lst.onnx"); ("CHEC", "flash.onnx")]%string).
    + apply (bool_decide_unpack _). vm_compute. exact I.
    + intros c p Hin. repeat (apply elem_of_cons in Hin as [[= -> ->]|Hin]);
        [by eexists | by eexists | by apply elem_of_nil in Hin].
    + exists "CHEC"%string. split; [right; left|].
      apply (bool_decide_unpack _). vm_compute. exact I.
Defined.

(** C6 (as stated) fails: the only configured camera is a supported one, its
    model file does not open, and construction ends in ModelLoadError. *)
Lemma init_model_not_loaded :
  (∀ c, c ∈ keys [("LSTCam", "missing.onnx")]%string →
        c ∈ Fixtures.lst_flash_nectar.(supported_cameras)) ∧
  @DeepLearningReconstructor.__init__ _ Fixtures.lst_flash_nectar
       Fixtures.open_file (Return ())
    [("LSTCam", "missing.onnx")]%string
  = Raise (ValueError (MsgNotLoaded "missing.onnx")) ∧
  ¬ succeeds (@DeepLearningReconstructor.__init__ _ Fixtures.lst_flash_nectar
       Fixtures.open_file (Return ())
                [("LSTCam", "missing.onnx")]%string).
Proof.
  split_and!.
  - intros c ->%list_elem_of_singleton. left.
  - reflexivity.
  - intros [self [=]].
Qed.

(** ** DeepLearningReconstructor.predict: routing *)

Section dispatch.
Context {Shower : Type} `{!ReconstructorVariant Shower}.
Implicit Types (self : DeepLearningReconstructor.t) (tels_dict : dict Z value)
  (subarray : SubarrayDescription) (cam_name : string).

(** The comprehension of lines 156-160 walks the telescopes in the order of
    the input mapping: it stops with a KeyError at the first telescope that
    the array does not describe and otherwise collects the inputs of the
    telescopes with the camera asked for. *)
Lemma obs_inputs_loop subarray cam_name (pre suf : dict Z value) (acc : list value) :
  dict_wf (pre ++ suf) →
  for_each (fun acc tel_id =>
              match tel subarray !! tel_id with
              | None => Raise (KeyErrorTel tel_id)
              | Some t =>
                  if decide (camera_name (geometry (camera t)) = cam_name) then
                    match dict_get (pre ++ suf) tel_id with
                    | Some inp => Return (acc ++ [inp])
                    | None => Raise (KeyErrorTel tel_id)
                    end
                  else Return acc
              end)
           (keys suf) acc
  = match filter (fun tel_id => camera_of subarray tel_id = None) (keys suf) with
    | [] => Return (acc ++ routed subarray cam_name suf)
    | tel_id :: _ => Raise (KeyErrorTel tel_id)
    end.
Proof.
  revert pre acc. induction suf as [|[t inp] suf IH]; intros pre acc Hwf.
  - simpl. unfold routed. simpl. by rewrite app_nil_r.
  - assert (Ht : t ∉ keys pre).
    { unfold dict_wf, keys in *. rewrite fmap_app in Hwf.
      apply NoDup_app in Hwf as (_ & Hdisj & _). intros Hin.
      apply (Hdisj _ Hin). csimpl. left. }
    specialize (IH (pre ++ [(t, inp)])). rewrite <- app_assoc in IH. simpl in IH.
    unfold keys, routed in *. csimpl. rewrite filter_cons.
    destruct (tel subarray !! t) as [desc|] eqn:Hdesc.
    + assert (Hcam : camera_of subarray t = Some (camera_name (geometry (camera desc)))).
      { unfold camera_of. by rewrite Hdesc. }
      rewrite (decide_False (P := camera_of subarray t = None)) by congruence.
      destruct (decide (camera_name (geometry (camera desc)) = cam_name)) as [Heq|Hne].
      * rewrite dict_get_middle by done. simpl.
        rewrite filter_cons_True by (simpl; congruence).
        rewrite IH by done.
        destruct (filter _ suf.*1); [|done]. csimpl. by rewrite <- app_assoc.
      * simpl.
        rewrite filter_cons_False by (simpl; congruence).
        by apply IH.
    + assert (Hcam : camera_of subarray t = None).
      { unfold camera_of. by rewrite Hdesc. }
      by rewrite (decide_True (P := camera_of subarray t = None)).
Qed.

Lemma obs_inputs_spec tels_dict subarray cam_name :
  dict_wf tels_dict →
  DeepLearningReconstructor.obs_inputs tels_dict subarray cam_name
  = match filter (fun tel_id => camera_of subarray tel_id = None) (keys tels_dict) with
    | [] => Return (routed subarray cam_name tels_dict)
    | tel_id :: _ => Raise (KeyErrorTel tel_id)
    end.
Proof. intros Hwf. apply (obs_inputs_loop subarray cam_name [] tels_dict [] Hwf). Qed.

Lemma obs_inputs_Return tels_dict subarray cam_name (inps : list value) :
  dict_wf tels_dict →
  DeepLearningReconstructor.obs_inputs tels_dict subarray cam_name = Return inps →
  inps = routed subarray cam_name tels_dict.
Proof.
  intros Hwf. rewrite obs_inputs_spec by done.
  destruct (filter _ _); [by intros [= <-] | done].
Qed.

Lemma obs_inputs_resolved tels_dict subarray cam_name :
  dict_wf tels_dict →
  (∀ tel_id, tel_id ∈ keys tels_dict → is_Some (camera_of subarray tel_id)) →
  DeepLearningReconstructor.obs_inputs tels_dict subarray cam_name
  = Return (routed subarray cam_name tels_dict).
Proof.
  intros Hwf Hres. rewrite obs_inputs_spec by done.
  destruct (filter _ _) as [|t ts] eqn:E; [done|].
  assert (Hin : t ∈ filter (fun tel_id => camera_of subarray tel_id = None)
                           (keys tels_dict)) by (rewrite E; left).
  apply list_elem_of_filter in Hin as [Hnone Hin].
  destruct (Hres t Hin) as [c Hc]. congruence.
Qed.

(** The appends of lines 162-169 build the list of the outputs of the calls,
    one per input and in their order. *)
Lemma append_loop (model : ONNXModel.t) cam_name (inps : list value)
    (predictions : PredictionBatch) (acc : list (list value)) :
  for_each (fun predictions inp =>
              outs ← getitem predictions cam_name;
              out ← DeepLearningReconstructor.call_model model inp;
              Return (dict_set predictions cam_name (outs ++ [out])))
           inps (dict_set predictions cam_name acc)
  = (outs ← comprehension (DeepLearningReconstructor.call_model model) inps;
     Return (dict_set predictions cam_name (acc ++ outs))).
Proof.
  revert acc. induction inps as [|inp inps IH]; intros acc; simpl.
  - by rewrite app_nil_r.
  - rewrite getitem_set_eq. simpl.
    destruct (DeepLearningReconstructor.call_model model inp) as [out|e]; simpl; [|done].
    rewrite dict_set_set, IH.
    destruct (comprehension _ inps); simpl; [|done]. by rewrite <- app_assoc.
Qed.

Lemma predictions_of_steps self tels_dict subarray :
  DeepLearningReconstructor.predictions_of self tels_dict subarray
  = for_each (camera_step self tels_dict subarray) supported_cameras [].
Proof.
  unfold DeepLearningReconstructor.predictions_of. apply for_each_ext.
  intros predictions cam_name _. unfold camera_step.
  destruct (dict_get _ cam_name) as [model|] eqn:Hm; [|done].
  unfold DeepLearningReconstructor._get_model, getitem. rewrite Hm. simpl.
  destruct (DeepLearningReconstructor.obs_inputs _ _ _) as [inps|e]; simpl; [|done].
  by rewrite append_loop.
Qed.

End dispatch.

(** ** DeepLearningReconstructor.predict: the prediction batch *)

Lemma dict_get_is_Some {K V : Type} `{EqDecision K} (d : dict K V) (k : K) :
  is_Some (dict_get d k) ↔ k ∈ keys d.
Proof.
  rewrite <- not_eq_None_Some, dict_get_None.
  split; [apply dec_stable | auto].
Qed.

Lemma comprehension_succeeds {A B : Type} (f : A → result B) (xs : list A) :
  (∀ x, x ∈ xs → succeeds (f x)) → succeeds (comprehension f xs).
Proof.
  induction xs as [|x xs IH]; intros Hall; simpl; [by eexists|].
  destruct (Hall x) as [y Hy]; [left|]. rewrite Hy. simpl.
  destruct IH as [ys Hys]; [intros; apply Hall; by right|].
  rewrite Hys. by eexists.
Qed.

Section batch.
Context {Shower : Type} `{!ReconstructorVariant Shower}.
Implicit Types (self : DeepLearningReconstructor.t) (tels_dict : dict Z value)
  (subarray : SubarrayDescription) (cam_name : string).

(** What the loop over the cameras adds to the batch: a key for each camera
    met that has a model, under it the outputs of the calls on the inputs
    routed to that camera. *)
Lemma camera_steps_inv self tels_dict subarray (cams : list string)
    (p p' : PredictionBatch) :
  for_each (camera_step self tels_dict subarray) cams p = Return p' →
  (dict_wf p → dict_wf p') ∧
  (∀ c, c ∈ keys p' ↔
        c ∈ keys p ∨ (c ∈ cams ∧ c ∈ keys (DeepLearningReconstructor.models self))) ∧
  (∀ c outs, dict_get p' c = Some outs →
     dict_get p c = Some outs ∨
     (c ∈ cams ∧
      ∃ model inps,
        dict_get (DeepLearningReconstructor.models self) c = Some model ∧
        DeepLearningReconstructor.obs_inputs tels_dict subarray c = Return inps ∧
        comprehension (DeepLearningReconstructor.call_model model) inps = Return outs)).
Proof.
  revert p. induction cams as [|c0 cams IH]; intros p; simpl.
  - intros [= <-]. split_and!; [done | | by left].
    intros c. split; [by left | intros [?|[?%elem_of_nil _]]; done].
  - intros (p1 & Hstep & Hrest)%bind_eq_Return.
    destruct (IH p1 Hrest) as (IHwf & IHkeys & IHget).
    unfold camera_step in Hstep.
    destruct (dict_get (DeepLearningReconstructor.models self) c0) as [model|] eqn:Hm.
    + apply bind_eq_Return in Hstep as (inps & Hinps & Hstep).
      apply bind_eq_Return in Hstep as (outs0 & Houts & [= <-]).
      assert (Hc0 : c0 ∈ keys (DeepLearningReconstructor.models self)).
      { apply dict_get_is_Some. by rewrite Hm. }
      split_and!.
      * intros Hwf. by apply IHwf, dict_set_wf.
      * intros c. rewrite IHkeys, elem_of_keys_dict_set, elem_of_cons.
        split; [intros [[->|?]|[? ?]] | intros [?|[[->|?] ?]]]; auto.
      * intros c outs [Hget|[Hin Hex]]%IHget; [|right; split; [by right | done]].
        destruct (decide (c0 = c)) as [<-|Hne].
        -- rewrite dict_get_set_eq in Hget. injection Hget as <-.
           right. split; [left|]. by exists model, inps.
        -- rewrite dict_get_set_ne in Hget by done. by left.
    + injection Hstep as <-. apply dict_get_None in Hm. split_and!; [done | |].
      * intros c. rewrite IHkeys, elem_of_cons.
        split; [intros [?|[? ?]] | intros [?|[[->|?] ?]]]; auto. done.
      * intros c outs [Hget|[Hin Hex]]%IHget; [by left|].
        right. split; [by right | done].
Qed.

(** The loop over the cameras returns when every telescope is described
    and every call on a routed input returns. *)
Lemma camera_steps_total self tels_dict subarray (cams : list string)
    (p : PredictionBatch) :
  dict_wf tels_dict →
  (∀ tel_id, tel_id ∈ keys tels_dict → is_Some (camera_of subarray tel_id)) →
  (∀ c model inp,
     dict_get (DeepLearningReconstructor.models self) c = Some model →
     inp ∈ routed subarray c tels_dict →
     succeeds (DeepLearningReconstructor.call_model model inp)) →
  succeeds (for_each (camera_step self tels_dict subarray) cams p).
Proof.
  intros Hwf Hres Hcalls. revert p.
  induction cams as [|c cams IH]; intros p; simpl; [by eexists|].
  assert (succeeds (camera_step self tels_dict subarray p c)) as [p1 Hp1].
  { unfold camera_step.
    destruct (dict_get (DeepLearningReconstructor.models self) c) as [model|] eqn:Hm;
      [|by eexists].
    rewrite obs_inputs_resolved by done. simpl.
    destruct (comprehension_succeeds (DeepLearningReconstructor.call_model model)
                (routed subarray c tels_dict)) as [outs Houts]; [by eauto|].
    rewrite Houts. by eexists. }
  rewrite Hp1. simpl. apply IH.
Qed.

(** C9: the prediction batch, when there is one, has exactly the supported
    cameras that have a model as its keys, each once, whatever telescopes
    the event has; a camera among them with no telescope in the event has
    the empty list.  There is a batch whenever every telescope of the event
    is described and every call on a routed input returns. *)
Theorem predictions_keys self tels_dict subarray :
  dict_wf tels_dict →
  ((∀ tel_id, tel_id ∈ keys tels_dict → is_Some (camera_of subarray tel_id)) →
   (∀ c model inp,
      dict_get (DeepLearningReconstructor.models self) c = Some model →
      inp ∈ routed subarray c tels_dict →
      succeeds (DeepLearningReconstructor.call_model model inp)) →
   succeeds (DeepLearningReconstructor.predictions_of self tels_dict subarray)) ∧
  (∀ batch,
     DeepLearningReconstructor.predictions_of self tels_dict subarray = Return batch →
     dict_wf batch ∧
     (∀ c, c ∈ keys batch ↔
           c ∈ supported_cameras ∧ c ∈ keys (DeepLearningReconstructor.models self)) ∧
     (∀ c, c ∈ supported_cameras →
           c ∈ keys (DeepLearningReconstructor.models self) →
           routed subarray c tels_dict = [] →
           dict_get batch c = Some [])).
Proof.
  intros Hwf. rewrite predictions_of_steps. split.
  - intros Hres Hcalls. by apply camera_steps_total.
  - intros batch Hbatch.
    destruct (camera_steps_inv _ _ _ _ _ _ Hbatch) as (Hbwf & Hkeys & Hget).
    split_and!.
    + apply Hbwf. constructor.
    + intros c. rewrite Hkeys. split; [intros [?%elem_of_nil|?]; done | by right].
    + intros c Hsup Hmod Hnone.
      assert (Hin : c ∈ keys batch) by (apply Hkeys; by right).
      apply dict_get_is_Some in Hin as [outs Houts]. rewrite Houts.
      destruct (Hget c outs Houts) as [[=]|(_ & model & inps & _ & Hinps & Hcomp)].
      apply obs_inputs_Return in Hinps; [|done]. rewrite Hinps, Hnone in Hcomp.
      by injection Hcomp as <-.
Qed.

End batch.

Lemma predictions_keys_witness :
  let batch := [("LSTCam"%string, []);
                ("FlashCam"%string, [[Fixtures.singles 3]])] in
  @DeepLearningReconstructor.predictions_of _ Fixtures.lst_flash_nectar
    Fixtures.flash_and_lst [(3%Z, Fixtures.doubles 3)] Fixtures.array_lst_lst_flash
  = Return batch ∧
  dict_wf batch ∧
  (∀ c, c ∈ keys batch ↔
        c ∈ Fixtures.lst_flash_nectar.(supported_cameras) ∧
        c ∈ keys (DeepLearningReconstructor.models Fixtures.flash_and_lst)) ∧
  dict_get batch "LSTCam"%string = Some [].
Proof.
  intros batch.
  assert (Hwf : dict_wf [(3%Z, Fixtures.doubles 3)]).
  { apply (bool_decide_unpack _). vm_compute. exact I. }
  assert (Hrun : @DeepLearningReconstructor.predictions_of _ Fixtures.lst_flash_nectar
                   Fixtures.flash_and_lst [(3%Z, Fixtures.doubles 3)]
                   Fixtures.array_lst_lst_flash = Return batch) by (vm_compute; reflexivity).
  destruct (@predictions_keys _ Fixtures.lst_flash_nectar Fixtures.flash_and_lst
              [(3%Z, Fixtures.doubles 3)] Fixtures.array_lst_lst_flash Hwf)
    as [_ Hbatch].
  destruct (Hbatch batch Hrun) as (Hb & Hkeys & Hempty).
  split_and!; [exact Hrun | exact Hb | exact Hkeys |].
  apply Hempty.
  - left.
  - right. left.
  - vm_compute. reflexivity.
Defined.

(** ** DeepLearningReconstructor.predict: how a model is called *)

Section calls.
Context {Shower : Type} `{!ReconstructorVariant Shower}.

(** C8 (as amended): the loop over the supported cameras calls, for each
    camera with a model and each input routed to it, in order, [predict]
    with the items as positional arguments when the input is a list, with
    the entries as named arguments when it is a dict, and with the input as
    the only positional argument otherwise (an array, and also a tuple or a
    number); the outputs kept under a camera are the results of these
    calls. *)
Theorem dispatch_calls (self : DeepLearningReconstructor.t) (tels_dict : dict Z value)
    (subarray : SubarrayDescription) :
  dict_wf tels_dict →
  DeepLearningReconstructor.predictions_of self tels_dict subarray
  = for_each
      (fun predictions cam_name =>
         match dict_get (DeepLearningReconstructor.models self) cam_name with
         | None => Return predictions
         | Some model =>
             inps ← DeepLearningReconstructor.obs_inputs tels_dict subarray cam_name;
             outs ← comprehension
                      (fun inp => match inp with
                                  | VList items => ONNXModel.predict model items []
                                  | VDict entries => ONNXModel.predict model [] entries
                                  | _ => ONNXModel.predict model [inp] []
                                  end) inps;
             Return (dict_set predictions cam_name outs)
         end)
      supported_cameras [] ∧
  ∀ batch,
    DeepLearningReconstructor.predictions_of self tels_dict subarray = Return batch →
    ∀ cam_name outs, dict_get batch cam_name = Some outs →
    ∃ model,
      dict_get (DeepLearningReconstructor.models self) cam_name = Some model ∧
      Forall2 (fun inp out =>
                 match inp with
                 | VList items => ONNXModel.predict model items []
                 | VDict entries => ONNXModel.predict model [] entries
                 | _ => ONNXModel.predict model [inp] []
                 end = Return out)
              (routed subarray cam_name tels_dict) outs.
Proof.
  intros Hwf. split; [apply predictions_of_steps|].
  intros batch Hbatch cam_name outs Houts. rewrite predictions_of_steps in Hbatch.
  destruct (camera_steps_inv _ _ _ _ _ _ Hbatch) as (_ & _ & Hget).
  destruct (Hget _ _ Houts) as [[=]|(_ & model & inps & Hm & Hinps & Hcomp)].
  exists model. split; [done|].
  apply obs_inputs_Return in Hinps as ->; [|done].
  by apply comprehension_Return in Hcomp.
Qed.

End calls.

Lemma dispatch_calls_witness :
  let event := [(1%Z, VList [Fixtures.doubles 3]);
                (3%Z, Fixtures.doubles 2);
                (2%Z, VDict [("x"%string, Fixtures.doubles 1)])] in
  ∃ model,
    dict_get (DeepLearningReconstructor.models Fixtures.lst_only) "LSTCam"%string
    = Some model ∧
    Forall2 (fun inp out =>
               match inp with
               | VList items => ONNXModel.predict model items []
               | VDict entries => ONNXModel.predict model [] entries
               | _ => ONNXModel.predict model [inp] []
               end = Return out)
            (routed Fixtures.array_lst_lst_flash "LSTCam"%string event)
            [[Fixtures.singles 3]; [Fixtures.singles 1]].
Proof.
  intros event.
  assert (Hwf : dict_wf event).
  { apply (bool_decide_unpack _). vm_compute. exact I. }
  destruct (@dispatch_calls _ Fixtures.lst_flash_nectar Fixtures.lst_only event
              Fixtures.array_lst_lst_flash Hwf) as [_ Hcalls].
  apply (Hcalls [("LSTCam"%string, [[Fixtures.singles 3]; [Fixtures.singles 1]])]).
  - vm_compute. reflexivity.
  - vm_compute. reflexivity.
Defined.

(** C8 (as stated) fails: a tuple of two arrays is a sequence, and the
    two-input model is called with the tuple as its only argument, not with
    the two arrays; the event that succeeds with a list fails with a
    tuple. *)
Lemma dispatch_tuple_not_unpacked :
  let a := Fixtures.doubles 3 in
  let model := Fixtures.echo_model ["x"; "y"]%string in
  DeepLearningReconstructor.call_model model (VTuple [a; a])
  = ONNXModel.predict model [VTuple [a; a]] [] ∧
  DeepLearningReconstructor.call_model model (VTuple [a; a])
  ≠ ONNXModel.predict model [a; a] [] ∧
  @DeepLearningReconstructor.predictions_of _ Fixtures.lst_flash_nectar
    Fixtures.lst_two_inputs [(1%Z, VTuple [a; a])] Fixtures.array_lst_lst_flash
  = Raise (ValueError (MsgArgumentCount 1 2)) ∧
  @DeepLearningReconstructor.predictions_of _ Fixtures.lst_flash_nectar
    Fixtures.lst_two_inputs [(1%Z, VList [a; a])] Fixtures.array_lst_lst_flash
  = Return [("LSTCam"%string, [[Fixtures.singles 3; Fixtures.singles 3]])].
Proof.
  simpl. split_and!; [reflexivity | | vm_compute; reflexivity | vm_compute; reflexivity].
  vm_compute. discriminate.
Qed.

(** ** DeepLearningReconstructor.predict: an event with cameras A, A, B *)

Section two_of_three.
Context {Shower : Type} `{!ReconstructorVariant Shower}.

(** With a model for one camera only, the loop over the supported cameras
    makes the calls for that camera, once or again with the same outcome,
    and keeps nothing else. *)
Lemma single_camera_steps (self : DeepLearningReconstructor.t) (tels_dict : dict Z value)
    (subarray : SubarrayDescription) (A : string) (model : ONNXModel.t)
    (cams : list string) (p : PredictionBatch) :
  DeepLearningReconstructor.models self = [(A, model)] →
  let calls := inps ← DeepLearningReconstructor.obs_inputs tels_dict subarray A;
               comprehension (DeepLearningReconstructor.call_model model) inps in
  p = [] ∨ (∃ outs, calls = Return outs ∧ p = [(A, outs)]) →
  for_each (camera_step self tels_dict subarray) cams p
  = if decide (A ∈ cams) then outs ← calls; Return [(A, outs)] else Return p.
Proof.
  intros Hmodels calls. revert p.
  induction cams as [|c cams IH]; intros p Hp; simpl; [done|].
  assert (Hstep : camera_step self tels_dict subarray p c
                  = if decide (A = c) then outs ← calls; Return (dict_set p A outs)
                    else Return p).
  { unfold camera_step. rewrite Hmodels. simpl.
    destruct (decide (A = c)) as [<-|Hne]; [|done].
    unfold calls.
    destruct (DeepLearningReconstructor.obs_inputs tels_dict subarray A); [|done].
    simpl. by destruct (comprehension _ _). }
  rewrite Hstep. destruct (decide (A = c)) as [<-|Hne].
  - rewrite (decide_True (P := A ∈ A :: cams)) by left.
    destruct calls as [outs|e] eqn:Hcalls; simpl; [|done].
    assert (Hset : dict_set p A outs = [(A, outs)]).
    { destruct Hp as [->|(outs' & _ & ->)]; simpl; by rewrite ?decide_True. }
    rewrite Hset, IH by (right; by exists outs).
    by case_decide.
  - simpl. rewrite IH by done.
    destruct (decide (A ∈ cams)) as [Hin|Hnin].
    + by rewrite decide_True by (by right).
    + rewrite decide_False; [done|]. by intros [?|?]%elem_of_cons.
Qed.

(** The telescopes of one camera are as many as that camera occurs in the
    list of the cameras of the event. *)
Lemma routed_length (subarray : SubarrayDescription) (A : string)
    (tels_dict : dict Z value) (cams : list string) :
  Forall2 (fun x c => camera_of subarray x.1 = Some c) tels_dict cams →
  length (filter (fun x => camera_of subarray x.1 = Some A) tels_dict)
  = length (filter (fun c => c = A) cams).
Proof.
  induction 1 as [|[t inp] c tels cams Hc _ IH]; [done|]. simpl in Hc.
  destruct (decide (c = A)) as [->|Hne].
  - rewrite (filter_cons_True (fun x : Z * value => camera_of subarray x.1 = Some A))
      by exact Hc.
    rewrite (filter_cons_True (fun c => c = A)) by done.
    cbn [length]. by rewrite IH.
  - rewrite (filter_cons_False (fun x : Z * value => camera_of subarray x.1 = Some A))
      by (simpl; congruence).
    by rewrite (filter_cons_False (fun c => c = A)) by done.
Qed.

(** C1: for a constructed reconstructor whose only model is for camera A,
    and an event of three telescopes with cameras A, A and B in some order,
    the prediction batch is made of the outputs of the model on the inputs
    of the two A-telescopes, in their order in the input mapping, under the
    key A alone; the input of the B-telescope reaches no model, and the
    only exceptions are those of the two calls. *)
Theorem dispatch_two_of_three (open : string → result InferenceSession)
    (super_init : result unit) (models_paths : dict string string)
    (self : DeepLearningReconstructor.t) (model : ONNXModel.t) (A B : string)
    (tels_dict : dict Z value) (subarray : SubarrayDescription) (cams : list string) :
  DeepLearningReconstructor.__init__ open super_init models_paths = Return self →
  DeepLearningReconstructor.models self = [(A, model)] →
  A ≠ B → dict_wf tels_dict →
  Forall2 (fun x c => camera_of subarray x.1 = Some c) tels_dict cams →
  cams ≡ₚ [A; A; B] →
  ∃ t1 i1 t2 i2,
    filter (fun x => camera_of subarray x.1 = Some A) tels_dict = [(t1, i1); (t2, i2)] ∧
    [(t1, i1); (t2, i2)] `sublist_of` tels_dict ∧
    DeepLearningReconstructor.predictions_of self tels_dict subarray
    = (p1 ← DeepLearningReconstructor.call_model model i1;
       p2 ← DeepLearningReconstructor.call_model model i2;
       Return [(A, [p1; p2])]).
Proof.
  intros Hinit Hmodels HAB Hwf Hcams Hperm.
  assert (Hsup : A ∈ supported_cameras).
  { apply (init_supported open super_init models_paths self Hinit).
    rewrite Hmodels. left. }
  assert (Hlen : length (filter (fun x => camera_of subarray x.1 = Some A) tels_dict) = 2).
  { rewrite (routed_length subarray A tels_dict cams Hcams), Hperm.
    rewrite !filter_cons, filter_nil.
    rewrite !(decide_True (P := A = A)) by done. by rewrite decide_False by done. }
  destruct (filter _ tels_dict) as [|[t1 i1] [|[t2 i2] [|? ?]]] eqn:Hfilter; try done.
  exists t1, i1, t2, i2. split_and!; [done | |].
  - rewrite <- Hfilter. apply sublist_filter.
  - rewrite predictions_of_steps.
    rewrite (single_camera_steps self tels_dict subarray A model) by (done || by left).
    rewrite decide_True by done.
    rewrite obs_inputs_resolved; [|done|].
    + unfold routed. rewrite Hfilter. simpl.
      destruct (DeepLearningReconstructor.call_model model i1); simpl; [|done].
      by destruct (DeepLearningReconstructor.call_model model i2).
    + intros t Ht. unfold keys in Ht.
      apply list_elem_of_fmap in Ht as ([t' inp] & -> & Hin).
      apply list_elem_of_lookup in Hin as [i Hi].
      destruct (Forall2_lookup_l _ _ _ _ _ Hcams Hi) as (c & _ & Hc).
      exists c. exact Hc.
Qed.

End two_of_three.

Lemma dispatch_two_of_three_witness :
  @DeepLearningReconstructor.predictions_of _ Fixtures.lst_flash_nectar
    Fixtures.lst_only
    [(1%Z, VList [Fixtures.doubles 3]); (3%Z, Fixtures.doubles 2);
     (2%Z, VDict [("x"%string, Fixtures.doubles 1)])]
    Fixtures.array_lst_lst_flash
  = Return [("LSTCam"%string, [[Fixtures.singles 3]; [Fixtures.singles 1]])].
Proof.
  destruct (@dispatch_two_of_three _ Fixtures.lst_flash_nectar Fixtures.open_file
              (Return ()) [("LSTCam", "lst.onnx")]%string Fixtures.lst_only
              (Fixtures.echo_model ["x"%string]) "LSTCam"%string "FlashCam"%string
              [(1%Z, VList [Fixtures.doubles 3]); (3%Z, Fixtures.doubles 2);
               (2%Z, VDict [("x"%string, Fixtures.doubles 1)])]
              Fixtures.array_lst_lst_flash
              ["LSTCam"; "FlashCam"; "LSTCam"]%string)
    as (t1 & i1 & t2 & i2 & Hfilter & _ & Hbatch).
  - vm_compute. reflexivity.
  - reflexivity.
  - discriminate.
  - apply (bool_decide_unpack _). vm_compute. exact I.
  - repeat constructor.
  - apply perm_skip, perm_swap.
  - vm_compute in Hfilter. injection Hfilter as <- <- <- <-.
    rewrite Hbatch. vm_compute. reflexivity.
Defined.

(** ** ONNXModel.predict on the store: what a call leaves untouched *)

Section frame.
Import Heap.
Context (h0 : gmap loc cell).

Lemma keeps_ret {A : Type} (a : A) : keeps h0 (ret a).
Proof. by intros h Hh. Qed.

Lemma keeps_raise {A : Type} (e : exn) : keeps h0 (@raise A e).
Proof. by intros h Hh. Qed.

Lemma keeps_lift {A : Type} (r : result A) : keeps h0 (lift r).
Proof. by intros h Hh. Qed.

Lemma keeps_bind {A B : Type} (c : M A) (f : A → M B) :
  keeps h0 c → (∀ a, keeps h0 (f a)) → keeps h0 (bind c f).
Proof.
  intros Hc Hf h Hh. unfold bind. specialize (Hc h Hh).
  destruct (c h) as [[a|e] h']; simpl in *; [by apply Hf | done].
Qed.

Lemma keeps_load (l : loc) : keeps h0 (load l).
Proof. intros h Hh. unfold load. by destruct (h !! l). Qed.

(** A new object takes a location that holds nothing. *)
Lemma keeps_alloc (c : cell) : keeps h0 (alloc c).
Proof.
  intros h Hh. unfold alloc. simpl. etrans; [exact Hh|].
  apply insert_subseteq, not_elem_of_dom, is_fresh.
Qed.

(** A store to an object that [h0] does not hold. *)
Lemma keeps_store (l : loc) (c : cell) : h0 !! l = None → keeps h0 (store l c).
Proof.
  intros Hl h Hh. unfold store. simpl.
  apply map_subseteq_spec. intros l' c' Hl'.
  rewrite lookup_insert_ne by congruence.
  by eapply lookup_weaken.
Qed.

Lemma keeps_load_value (l : loc) : keeps h0 (load_value l).
Proof.
  apply keeps_bind; [apply keeps_load|].
  intros []; first [apply keeps_ret | apply keeps_raise].
Qed.

Lemma keeps_load_dict (l : loc) : keeps h0 (load_dict l).
Proof.
  apply keeps_bind; [apply keeps_load|].
  intros []; first [apply keeps_ret | apply keeps_raise].
Qed.

Lemma keeps_load_model (l : loc) : keeps h0 (load_model l).
Proof.
  apply keeps_bind; [apply keeps_load|].
  intros []; first [apply keeps_ret | apply keeps_raise].
Qed.

Lemma keeps_setitem (d : loc) (k : string) (x : loc) :
  h0 !! d = None → keeps h0 (setitem d k x).
Proof.
  intros Hd. apply keeps_bind; [apply keeps_load_dict|].
  intros entries. by apply keeps_store.
Qed.

Lemma keeps_getitem_ref (d : loc) (k : string) : keeps h0 (getitem_ref d k).
Proof.
  apply keeps_bind; [apply keeps_load_dict|]. intros entries. apply keeps_lift.
Qed.

Lemma keeps_for_each_ {A : Type} (body : A → M unit) (xs : list A) :
  (∀ x, keeps h0 (body x)) → keeps h0 (for_each_ body xs).
Proof.
  intros Hbody. induction xs as [|x xs IH]; simpl; [apply keeps_ret|].
  apply keeps_bind; [apply Hbody | intros _; apply IH].
Qed.

Lemma keeps_comprehension {A B : Type} (f : A → M B) (xs : list A) :
  (∀ x, keeps h0 (f x)) → keeps h0 (Heap.comprehension_ f xs).
Proof.
  intros Hf. induction xs as [|x xs IH]; simpl; [apply keeps_ret|].
  apply keeps_bind; [apply Hf|]. intros y.
  apply keeps_bind; [apply IH|]. intros ys. apply keeps_ret.
Qed.

Lemma keeps_read_feed (kwargs : loc) : keeps h0 (read_feed kwargs).
Proof.
  apply keeps_bind; [apply keeps_load_dict|]. intros entries.
  apply keeps_comprehension. intros [k l].
  apply keeps_bind; [apply keeps_load_value|]. intros v. apply keeps_ret.
Qed.

(** The location of a new object is one that [h0] does not hold. *)
Lemma keeps_bind_alloc {B : Type} (c : cell) (f : loc → M B) :
  (∀ l, h0 !! l = None → keeps h0 (f l)) → keeps h0 (bind (alloc c) f).
Proof.
  intros Hf h Hh. unfold bind, alloc. simpl.
  assert (Hnew : h !! fresh (dom h) = None) by apply not_elem_of_dom, is_fresh.
  apply Hf.
  - by eapply lookup_weaken_None.
  - etrans; [exact Hh|]. by apply insert_subseteq.
Qed.

(** In [predict] every store is to the kwargs dict of the call or to a new
    array. *)
Lemma keeps_predict (self : loc) (args : list loc) (named : dict string loc) :
  keeps h0 (Heap.predict self args named).
Proof.
  unfold Heap.predict.
  apply keeps_bind; [apply keeps_load_model|]. intros m.
  apply keeps_bind_alloc. intros kwargs Hkw.
  repeat first
    [ apply keeps_lift | apply keeps_ret | apply keeps_raise
    | apply keeps_load_dict | apply keeps_load_value
    | apply keeps_getitem_ref | apply keeps_read_feed | apply keeps_alloc
    | by apply keeps_setitem
    | apply keeps_for_each_; intros ?
    | apply keeps_comprehension; intros ?
    | apply keeps_bind; [|intros ?]
    | case_decide
    | case_match ].
Qed.

End frame.

(** C10: a call of [predict] on the store, whether it returns or raises,
    leaves every object that was there as it was: the objects passed as
    arguments, the model with its session, and the dict of models of the
    reconstructor; what the call writes is its own kwargs dict and new
    arrays. *)
Theorem predict_leaves_objects (self : Heap.loc) (args : list Heap.loc)
    (named : dict string Heap.loc) (h : gmap Heap.loc Heap.cell)
    (l : Heap.loc) (c : Heap.cell) :
  h !! l = Some c → (Heap.predict self args named h).2 !! l = Some c.
Proof.
  intros Hl. eapply lookup_weaken; [exact Hl|]. by apply keeps_predict.
Qed.

Lemma predict_leaves_objects_witness :
  let h := Fixtures.store_model_array in
  let h' := (Heap.predict 0 [1] [] h).2 in
  (Heap.predict 0 [1] [] h).1 = Return [5] ∧
  h' !! 5 = Some (Heap.CValue (Fixtures.singles 3)) ∧
  h' !! 0 = Some (Heap.CModel (Fixtures.echo_model ["x"%string])) ∧
  h' !! 1 = Some (Heap.CValue (Fixtures.doubles 3)) ∧
  h' !! 2 = Some (Heap.CRegistry [("LSTCam"%string, 0)]).
Proof.
  intros h h'. split_and!.
  - vm_compute. reflexivity.
  - vm_compute. reflexivity.
  - apply (predict_leaves_objects 0 [1] [] h 0). vm_compute. reflexivity.
  - apply (predict_leaves_objects 0 [1] [] h 1). vm_compute. reflexivity.
  - apply (predict_leaves_objects 0 [1] [] h 2). vm_compute. reflexivity.
Defined.

(** ** ONNXModel.predict on the store computes what it computes on values *)

Section on_store.
Import Heap.
Implicit Types (h : gmap loc cell) (entries : dict string loc)
  (d : dict string value).

Lemma bind_run {A B : Type} (c : M A) (f : A → M B) h :
  (c ≫= f) h = match c h with
               | (Return a, h') => f a h'
               | (Raise e, h') => (Raise e, h')
               end.
Proof. reflexivity. Qed.

Lemma load_dict_at h kwargs entries :
  h !! kwargs = Some (CDict entries) → load_dict kwargs h = (Return entries, h).
Proof.
  intros Hk. unfold load_dict. rewrite bind_run. unfold load. by rewrite Hk.
Qed.

Lemma load_value_at h l v : points_to h l v → load_value l h = (Return v, h).
Proof.
  intros Hl. unfold load_value. rewrite bind_run. unfold load. by rewrite Hl.
Qed.

Lemma load_model_at h self m :
  h !! self = Some (CModel m) → load_model self h = (Return m, h).
Proof.
  intros Hs. unfold load_model. rewrite bind_run. unfold load. by rewrite Hs.
Qed.

Lemma values_kept_refl h : values_kept h h.
Proof. by intros l v. Qed.

Lemma values_kept_trans h1 h2 h3 :
  values_kept h1 h2 → values_kept h2 h3 → values_kept h1 h3.
Proof. intros H12 H23 l v Hl. by apply H23, H12. Qed.

(** Writing a dict object or a new object keeps the values. *)
Lemma values_kept_insert_dict h kwargs entries c :
  h !! kwargs = Some (CDict entries) → values_kept h (<[kwargs := c]> h).
Proof.
  intros Hk l v Hl. unfold points_to in *.
  rewrite lookup_insert_ne; [done|]. intros <-. congruence.
Qed.

Lemma values_kept_insert_new h l c :
  h !! l = None → values_kept h (<[l := c]> h).
Proof.
  intros Hnew l' v Hl. unfold points_to in *.
  rewrite lookup_insert_ne; [done|]. intros <-. congruence.
Qed.

Lemma represents_kept h h' entries d :
  values_kept h h' → represents h entries d → represents h' entries d.
Proof.
  intros Hkept Hrep. unfold represents. eapply Forall2_impl; [exact Hrep|].
  intros x y [Hk Hv]. split; [done | by apply Hkept].
Qed.

Lemma represents_keys h entries d : represents h entries d → keys entries = keys d.
Proof.
  unfold keys. induction 1 as [|[k l] [k' v] entries d [Hk _] _ IH]; csimpl; [done|].
  simpl in Hk. by rewrite Hk, IH.
Qed.

(** Looking a name up in the two dicts. *)
Lemma represents_get h entries d k :
  represents h entries d →
  match dict_get entries k, dict_get d k with
  | Some l, Some v => points_to h l v
  | None, None => True
  | _, _ => False
  end.
Proof.
  induction 1 as [|[k1 l] [k2 v] entries d [Hk Hv] _ IH]; simpl in *; [done|].
  subst k2. by case_decide.
Qed.

(** Storing under a name in the two dicts. *)
Lemma represents_set h entries d k l v :
  represents h entries d → points_to h l v →
  represents h (dict_set entries k l) (dict_set d k v).
Proof.
  intros Hrep Hl.
  induction Hrep as [|[k1 l1] [k2 v2] entries d [Hk Hv] Hrest IH]; simpl in *.
  - by constructor.
  - subst k2. case_decide; constructor; done.
Qed.

(** [kwargs[k] = x] on the store is [dict_set] on the values. *)
Lemma setitem_at h kwargs d k l v :
  dict_at h kwargs d → points_to h l v →
  ∃ h', setitem kwargs k l h = (Return (), h') ∧
        values_kept h h' ∧ dict_at h' kwargs (dict_set d k v).
Proof.
  intros (entries & Hk & Hrep) Hl.
  exists (<[kwargs := CDict (dict_set entries k l)]> h).
  assert (Hkept : values_kept h (<[kwargs := CDict (dict_set entries k l)]> h)).
  { by eapply values_kept_insert_dict. }
  split_and!; [| done |].
  - unfold setitem. rewrite bind_run, (load_dict_at h kwargs entries) by done. done.
  - exists (dict_set entries k l). split; [apply lookup_insert_eq|].
    eapply represents_kept; [done|]. by apply represents_set.
Qed.

(** [kwargs[k]] followed by a read of the object. *)
Lemma getitem_value_at {B : Type} h kwargs d k (rest : value → M B) :
  dict_at h kwargs d →
  (inp ← getitem_ref kwargs k; v ← load_value inp; rest v) h
  = match getitem d k with
    | Return v => rest v h
    | Raise e => (Raise e, h)
    end.
Proof.
  intros (entries & Hk & Hrep).
  rewrite bind_run. unfold getitem_ref.
  rewrite bind_run, (load_dict_at h kwargs entries) by done.
  pose proof (represents_get h entries d k Hrep) as Hget.
  unfold lift, getitem.
  destruct (dict_get entries k) as [l|], (dict_get d k) as [v|]; try done.
  by rewrite bind_run, (load_value_at h l v).
Qed.

(** A loop on the store that follows, turn by turn, a loop on the dict of
    values; [Inv] is what the turns need of the store. *)
Lemma for_each_at {A : Type} (kwargs : loc) (Inv : gmap loc cell → Prop)
    (body : A → M unit)
    (step : dict string value → A → result (dict string value)) (xs : list A) :
  (∀ h h', values_kept h h' → Inv h → Inv h') →
  (∀ x h d, Inv h → dict_at h kwargs d →
     ∃ h', body x h = (outcome (step d x), h') ∧ values_kept h h' ∧
           ∀ d', step d x = Return d' → dict_at h' kwargs d') →
  ∀ h d, Inv h → dict_at h kwargs d →
    ∃ h', for_each_ body xs h = (outcome (for_each step xs d), h') ∧
          values_kept h h' ∧
          ∀ d', for_each step xs d = Return d' → dict_at h' kwargs d'.
Proof.
  intros Hinv Hbody. induction xs as [|x xs IH]; intros h d Hh Hd; simpl.
  - exists h. split_and!; [done | apply values_kept_refl | by intros d' [= <-]].
  - destruct (Hbody x h d Hh Hd) as (h1 & Hrun & Hkept1 & Hd1).
    rewrite bind_run, Hrun.
    destruct (step d x) as [d1|e]; simpl.
    + destruct (IH h1 d1 (Hinv _ _ Hkept1 Hh) (Hd1 d1 eq_refl))
        as (h2 & Hrun2 & Hkept2 & Hd2).
      exists h2. split_and!; [done | by eapply values_kept_trans | done].
    + exists h1. split_and!; [done | done | by intros d' [=]].
Qed.

(** A comprehension whose element expression only reads the store. *)
Lemma comprehension_at {A B : Type} (f : A → M B) (g : A → result B) h (xs : list A) :
  (∀ x, f x h = (g x, h)) →
  Heap.comprehension_ f xs h = (comprehension g xs, h).
Proof.
  intros Hf. induction xs as [|x xs IH]; simpl; [done|].
  rewrite bind_run, Hf. destruct (g x) as [y|e]; simpl; [|done].
  rewrite bind_run, IH. by destruct (comprehension g xs).
Qed.

(** Reading the feed gives the dict of values. *)
Lemma read_feed_at h kwargs d :
  dict_at h kwargs d → read_feed kwargs h = (Return d, h).
Proof.
  intros (entries & Hk & Hrep). unfold read_feed.
  rewrite bind_run, (load_dict_at h kwargs entries) by done.
  clear Hk. induction Hrep as [|[k l] [k' v] entries d [Hkk Hl] _ IH]; simpl; [done|].
  simpl in *. subst k'.
  rewrite !bind_run, (load_value_at h l v) by done. simpl.
  rewrite bind_run, IH. done.
Qed.

(** The outputs of the backend become new objects. *)
Lemma alloc_outputs_at (outs : list value) h :
  ∃ locs h',
    Heap.comprehension_ (fun v => alloc (CValue v)) outs h = (Return locs, h') ∧
    h ⊆ h' ∧ Forall2 (points_to h') locs outs.
Proof.
  revert h. induction outs as [|v outs IH]; intros h; simpl.
  - exists [], h. by split_and!.
  - rewrite bind_run. unfold alloc at 1.
    assert (Hnew : h !! fresh (dom h) = None) by apply not_elem_of_dom, is_fresh.
    destruct (IH (<[fresh (dom h) := CValue v]> h)) as (locs & h' & Hrun & Hsub & Hlocs).
    exists (fresh (dom h) :: locs), h'. rewrite bind_run, Hrun. split_and!; [done | |].
    + etrans; [|exact Hsub]. by apply insert_subseteq.
    + constructor; [|done]. unfold points_to.
      eapply lookup_weaken; [|exact Hsub]. apply lookup_insert_eq.
Qed.

(** The checks on the arguments look at the two counts only. *)
Lemma check_arguments_counts {A B : Type} (m : ONNXModel.t) (args : list A)
    (args' : list B) (kwargs : dict string A) (kwargs' : dict string B) :
  length args = length args' → length kwargs = length kwargs' →
  ONNXModel.check_arguments m args kwargs = ONNXModel.check_arguments m args' kwargs'.
Proof. intros Ha Hk. unfold ONNXModel.check_arguments. by rewrite Ha, Hk. Qed.

(** The two loops of [predict] on the store follow those on the values. *)
Lemma bind_positional_at (m : ONNXModel.t) (args : list loc) (argvs : list value)
    (kwargs : loc) (idx : list nat) h d :
  Forall2 (points_to h) args argvs → dict_at h kwargs d →
  ∃ h',
    for_each_ (fun i =>
                 match ONNXModel.inputs m !! i, args !! i with
                 | Some inp, Some a => setitem kwargs (name inp) a
                 | _, _ => raise IndexError
                 end) idx h
    = (outcome (for_each (fun kwargs i =>
                            match ONNXModel.inputs m !! i, argvs !! i with
                            | Some inp, Some a => Return (dict_set kwargs (name inp) a)
                            | _, _ => Raise IndexError
                            end) idx d), h') ∧
    values_kept h h' ∧
    ∀ d', for_each (fun kwargs i =>
                      match ONNXModel.inputs m !! i, argvs !! i with
                      | Some inp, Some a => Return (dict_set kwargs (name inp) a)
                      | _, _ => Raise IndexError
                      end) idx d = Return d' → dict_at h' kwargs d'.
Proof.
  intros Hargs Hd.
  apply (for_each_at kwargs (fun h => Forall2 (points_to h) args argvs)); [| |done..].
  - intros h1 h2 Hkept Hall. eapply Forall2_impl; [exact Hall|]. apply Hkept.
  - intros i h1 d1 Hall Hd1.
    destruct (ONNXModel.inputs m !! i) as [inp|];
      [|exists h1; split_and!; [done | apply values_kept_refl | done]].
    destruct (args !! i) as [a|] eqn:Ha.
    + destruct (Forall2_lookup_l _ _ _ _ _ Hall Ha) as (v & Hv & Hav). rewrite Hv.
      destruct (setitem_at h1 kwargs d1 (name inp) a v Hd1 Hav) as (h2 & Hrun & Hk & Hd2).
      exists h2. split_and!; [done | done | by intros d' [= <-]].
    + assert (argvs !! i = None) as ->.
      { apply lookup_ge_None. rewrite <- (Forall2_length _ _ _ Hall).
        by apply lookup_ge_None. }
      exists h1. split_and!; [done | apply values_kept_refl | done].
Qed.

Lemma convert_inputs_at (kwargs : loc) (names : list string) h d :
  dict_at h kwargs d →
  ∃ h',
    for_each_ (fun name =>
                 inp ← getitem_ref kwargs name;
                 v ← load_value inp;
                 match v with
                 | VArray a =>
                     if decide (arr_dtype a = float64) then
                       new ← alloc (CValue (VArray (astype_float32 a)));
                       setitem kwargs name new
                     else ret ()
                 | _ => ret ()
                 end) names h
    = (outcome (for_each (fun kwargs name =>
                            inp ← getitem kwargs name;
                            match inp with
                            | VArray a =>
                                if decide (arr_dtype a = float64) then
                                  Return (dict_set kwargs name (VArray (astype_float32 a)))
                                else Return kwargs
                            | _ => Return kwargs
                            end) names d), h') ∧
    values_kept h h' ∧
    ∀ d', for_each (fun kwargs name =>
                      inp ← getitem kwargs name;
                      match inp with
                      | VArray a =>
                          if decide (arr_dtype a = float64) then
                            Return (dict_set kwargs name (VArray (astype_float32 a)))
                          else Return kwargs
                      | _ => Return kwargs
                      end) names d = Return d' → dict_at h' kwargs d'.
Proof.
  intros Hd. apply (for_each_at kwargs (fun _ => True)); [done | | done..].
  intros k h1 d1 _ Hd1. rewrite (getitem_value_at h1 kwargs d1 k) by done.
  destruct (getitem d1 k) as [v|e]; simpl;
    [|exists h1; split_and!; [done | apply values_kept_refl | done]].
  assert (Hsame : ∃ h', ret () h1 = (outcome (Return d1), h') ∧ values_kept h1 h' ∧
                        ∀ d', Return d1 = Return d' → dict_at h' kwargs d').
  { exists h1. split_and!; [done | apply values_kept_refl | by intros d' [= <-]]. }
  destruct v as [a| | | |]; try exact Hsame.
  case_decide; [|exact Hsame].
  rewrite bind_run. unfold alloc at 1.
  set (new := fresh (dom h1)). set (h2 := <[new := _]> h1).
  assert (Hnew : h1 !! new = None) by apply not_elem_of_dom, is_fresh.
  assert (Hkept : values_kept h1 h2) by (by apply values_kept_insert_new).
  assert (Hd2 : dict_at h2 kwargs d1).
  { destruct Hd1 as (entries & Hk & Hrep). exists entries. split.
    - unfold h2. rewrite lookup_insert_ne; [done|]. intros <-. congruence.
    - by eapply represents_kept. }
  destruct (setitem_at h2 kwargs d1 k new (VArray (astype_float32 a)) Hd2)
    as (h3 & Hrun & Hkept3 & Hd3); [apply lookup_insert_eq|].
  exists h3. split_and!; [done | by eapply values_kept_trans | by intros d' [= <-]].
Qed.

(** On a store where the arguments are values, [predict] raises what
    [ONNXModel.predict] raises on these values, or returns references to
    the outputs that it returns. *)
Lemma predict_on_store (self : loc) (m : ONNXModel.t) (args : list loc)
    (argvs : list value) (named : dict string loc) (namedvs : dict string value) h :
  h !! self = Some (CModel m) →
  Forall2 (points_to h) args argvs → represents h named namedvs →
  ∃ r h',
    Heap.predict self args named h = (r, h') ∧
    match ONNXModel.predict m argvs namedvs with
    | Raise e => r = Raise e
    | Return outs => ∃ locs, r = Return locs ∧ Forall2 (points_to h') locs outs
    end.
Proof.
  intros Hself Hargs Hnamed.
  pose proof (Forall2_length _ _ _ Hargs) as Hlen.
  pose proof (Forall2_length _ _ _ Hnamed) as Hlenk.
  unfold Heap.predict, ONNXModel.predict.
  rewrite bind_run, (load_model_at h self m) by done.
  rewrite bind_run. unfold alloc at 1.
  assert (Hnew : h !! fresh (dom h) = None) by apply not_elem_of_dom, is_fresh.
  generalize dependent (fresh (dom h)). intros kwargs Hnew.
  assert (Hkept1 : values_kept h (<[kwargs := CDict named]> h)).
  { by apply values_kept_insert_new. }
  assert (Hd1 : dict_at (<[kwargs := CDict named]> h) kwargs namedvs).
  { exists named. split; [apply lookup_insert_eq | by eapply represents_kept]. }
  assert (Hargs1 : Forall2 (points_to (<[kwargs := CDict named]> h)) args argvs).
  { eapply Forall2_impl; [exact Hargs | apply Hkept1]. }
  generalize dependent (<[kwargs := CDict named]> h). intros h1 _ Hd1 Hargs1.
  (* the checks on the arguments *)
  rewrite bind_run. unfold lift at 1.
  rewrite (check_arguments_counts m args argvs named namedvs) by done.
  destruct (ONNXModel.check_arguments m argvs namedvs) as [[]|e]; simpl;
    [|by exists (Raise e), h1].
  (* positional arguments *)
  rewrite bind_run.
  assert (∃ h2,
            (if decide (length args ≠ 0) then
               for_each_ (fun i =>
                            match ONNXModel.inputs m !! i, args !! i with
                            | Some inp, Some a => setitem kwargs (name inp) a
                            | _, _ => raise IndexError
                            end) (seq 0 (length (ONNXModel.inputs m)))
             else ret ()) h1
            = (outcome (ONNXModel.bind_positional m argvs namedvs), h2) ∧
            ∀ d2, ONNXModel.bind_positional m argvs namedvs = Return d2 →
                  dict_at h2 kwargs d2) as (h2 & Hrun2 & Hd2).
  { unfold ONNXModel.bind_positional. rewrite <- Hlen.
    destruct (decide (length args ≠ 0)).
    - destruct (bind_positional_at m args argvs kwargs
                  (seq 0 (length (ONNXModel.inputs m))) h1 namedvs Hargs1 Hd1)
        as (h2 & Hrun & _ & Hd2).
      by exists h2.
    - exists h1. split; [done | by intros d2 [= <-]]. }
  rewrite Hrun2.
  destruct (ONNXModel.bind_positional m argvs namedvs) as [d2|e]; simpl;
    [|by exists (Raise e), h2].
  specialize (Hd2 d2 eq_refl). clear Hrun2 Hd1 Hargs1 h1.
  (* the lengths *)
  destruct Hd2 as (entries2 & Hk2 & Hrep2).
  assert (Hd2 : dict_at h2 kwargs d2) by (by exists entries2).
  rewrite bind_run, (load_dict_at h2 kwargs entries2) by done.
  rewrite (represents_keys h2 entries2 d2) by done.
  unfold ONNXModel.check_lengths.
  rewrite bind_run.
  rewrite (comprehension_at _ (fun name => v ← getitem d2 name; len v)); last first.
  { intros k. rewrite (getitem_value_at h2 kwargs d2 k) by done.
    by destruct (getitem d2 k). }
  destruct (comprehension _ (keys d2)) as [ns|e]; simpl; [|by exists (Raise e), h2].
  rewrite bind_run.
  destruct (decide (length (remove_dups ns) ≠ 1)); simpl;
    [by exists (Raise (ValueError MsgSameLength)), h2|].
  (* the conversion *)
  destruct (convert_inputs_at kwargs (keys d2) h2 d2 Hd2) as (h3 & Hrun3 & _ & Hd3).
  rewrite bind_run, Hrun3. unfold ONNXModel.convert_inputs.
  destruct (for_each _ (keys d2) d2) as [d3|e]; simpl; [|by exists (Raise e), h3].
  specialize (Hd3 d3 eq_refl).
  (* the backend *)
  rewrite bind_run, (read_feed_at h3 kwargs d3) by done.
  rewrite bind_run. unfold lift.
  destruct (run (ONNXModel.sess m) d3) as [outs|e]; [|by exists (Raise e), h3].
  destruct (alloc_outputs_at outs h3) as (locs & h4 & Hrun4 & _ & Hlocs).
  exists (Return locs), h4. split; [done | by exists locs].
Qed.


End on_store.

(** * Further properties of the code *)

(** ** ONNXModel.predict: every outcome *)

(** Once the checks on the arguments have passed, the binding of positional
    arguments stays within the tuple: there are no arguments to bind, no
    slots to bind them to, or as many of the one as of the other. *)
Lemma bind_positional_in_range (m : ONNXModel.t) (args : list value)
    (kwargs : dict string value) :
  ONNXModel.check_arguments m args kwargs = Return () →
  succeeds (ONNXModel.bind_positional m args kwargs).
Proof.
  intros [Hone Hcount]%check_arguments_Return. unfold ONNXModel.bind_positional.
  case_decide as Hargs; [|by eexists].
  destruct Hone as [[-> _]|[_ ->]]; [done|].
  assert (Hidx : Forall (fun i => i < length args)
                        (seq 0 (length (ONNXModel.inputs m)))).
  { apply Forall_forall. intros i [_ Hi]%elem_of_seq.
    destruct Hcount as [Hz|Hn]; simpl in *; lia. }
  assert (Hin : Forall (fun i => i < length (ONNXModel.inputs m))
                       (seq 0 (length (ONNXModel.inputs m)))).
  { apply Forall_forall. intros i [_ Hi]%elem_of_seq. simpl in Hi. lia. }
  generalize (@nil (string * value)).
  induction (seq 0 (length (ONNXModel.inputs m))) as [|i idx IH]; intros d; simpl.
  - by eexists.
  - inversion Hidx; inversion Hin; subst.
    destruct (lookup_lt_is_Some_2 (ONNXModel.inputs m) i) as [inp ->]; [done|].
    destruct (lookup_lt_is_Some_2 args i) as [a ->]; [done|].
    simpl. by apply IH.
Qed.

(** The length check ends in one of three ways. *)
Lemma check_lengths_outcomes (kw : dict string value) :
  dict_wf kw →
  ONNXModel.check_lengths kw = Return () ∨
  ONNXModel.check_lengths kw = Raise TypeError ∨
  ONNXModel.check_lengths kw = Raise (ValueError MsgSameLength).
Proof.
  intros Hwf. unfold ONNXModel.check_lengths. rewrite lengths_of_values by done.
  destruct (comprehension len (values kw)) as [ns|e] eqn:Hns; simpl.
  - case_decide; auto.
  - right; left. f_equal. clear Hwf. revert e Hns.
    induction (values kw) as [|v vs IH]; intros e; simpl; [done|].
    destruct (len v) as [n|e'] eqn:Hv; simpl.
    + destruct (comprehension len vs); simpl; [done|]. intros [= <-]. by apply IH.
    + intros [= <-]. by eapply len_raises.
Qed.

(** X1: whatever the model and the arguments, a call of [predict] ends in
    one of six ways: one of the four ValueErrors of the file, the TypeError
    of [len] on an input without a length, or the outcome of the backend on
    the bound and converted inputs.  In particular the indexing of
    [args[i]] and the look-ups of [kwargs[name]] never fail. *)
Theorem predict_outcomes (m : ONNXModel.t) (args : list value)
    (kwargs : dict string value) :
  dict_wf kwargs →
  ONNXModel.predict m args kwargs = Raise (ValueError MsgAtLeastOne) ∨
  ONNXModel.predict m args kwargs = Raise (ValueError MsgNamedAndOrdered) ∨
  ONNXModel.predict m args kwargs
  = Raise (ValueError (MsgArgumentCount (length kwargs `max` length args)
                                        (length (ONNXModel.inputs m)))) ∨
  ONNXModel.predict m args kwargs = Raise TypeError ∨
  ONNXModel.predict m args kwargs = Raise (ValueError MsgSameLength) ∨
  ∃ kw, ONNXModel.bind_positional m args kwargs = Return kw ∧
        ONNXModel.predict m args kwargs
        = run (ONNXModel.sess m) (prod_map id fed <$> kw).
Proof.
  intros Hwf. unfold ONNXModel.predict.
  destruct (ONNXModel.check_arguments m args kwargs) as [[]|e] eqn:Hchk; simpl.
  - destruct (bind_positional_in_range m args kwargs Hchk) as [kw Hkw].
    rewrite Hkw. simpl.
    assert (Hkwf : dict_wf kw) by (by eapply bind_positional_wf).
    destruct (check_lengths_outcomes kw Hkwf) as [-> | [-> | ->]]; simpl; auto 10.
    rewrite convert_inputs_fed by done. simpl. do 5 right. by exists kw.
  - unfold ONNXModel.check_arguments in Hchk.
    repeat case_decide; try done; injection Hchk as <-; auto 10.
Qed.

Lemma predict_outcomes_witness :
  ONNXModel.predict (Fixtures.echo_model ["x"%string]) []
    [("y"%string, VNum (EInt 1))] = Raise TypeError.
Proof.
  assert (Hwf : dict_wf [("y"%string, VNum (EInt 1))]).
  { apply (bool_decide_unpack _). vm_compute. exact I. }
  destruct (predict_outcomes (Fixtures.echo_model ["x"%string]) [] _ Hwf)
    as [H|[H|[H|[H|[H|[kw [Hb H]]]]]]]; try exact H;
    [..|vm_compute in Hb; injection Hb as <-]; vm_compute in H; discriminate.
Defined.

(** X2: for a model with at least one input, a call with arguments of one
    kind whose count is not the number of inputs fails with the count
    error, whose message carries the number of arguments given and the
    number of inputs; the values are not looked at, so this comes before any
    TypeError or length error. *)
Theorem predict_count_message (m : ONNXModel.t) (args : list value)
    (kwargs : dict string value) :
  (args = [] ∧ kwargs ≠ []) ∨ (args ≠ [] ∧ kwargs = []) →
  length (ONNXModel.inputs m) ≠ 0 →
  length args + length kwargs ≠ length (ONNXModel.inputs m) →
  ONNXModel.predict m args kwargs
  = Raise (ValueError (MsgArgumentCount (length args + length kwargs)
                                        (length (ONNXModel.inputs m)))).
Proof.
  intros. unfold ONNXModel.predict. by rewrite check_arguments_count.
Qed.

Lemma predict_count_message_witness :
  ONNXModel.predict (Fixtures.echo_model ["x"; "y"]%string)
    [VNum (EInt 1); Fixtures.doubles 3; Fixtures.doubles 4] []
  = Raise (ValueError (MsgArgumentCount 3 2)).
Proof.
  apply (predict_count_message (Fixtures.echo_model ["x"; "y"]%string)
           [VNum (EInt 1); Fixtures.doubles 3; Fixtures.doubles 4] []).
  - right. split; [discriminate | reflexivity].
  - simpl. lia.
  - simpl. lia.
Defined.

(** ** ONNXModel.predict: the conversion, once more *)

Lemma fed_fed (v : value) : fed (fed v) = fed v.
Proof.
  destruct v as [a| | | |]; simpl; try done.
  destruct (decide (arr_dtype a = float64)) as [Ha|Ha]; simpl; [done|].
  by rewrite decide_False.
Qed.

Lemma len_fed (v : value) : len (fed v) = len v.
Proof. destruct v as [a| | | |]; simpl; try done. by case_decide. Qed.

Lemma keys_fed (kw : dict string value) : keys (prod_map id fed <$> kw) = keys kw.
Proof. unfold keys. rewrite <- list_fmap_compose. by apply list_fmap_ext; intros ? []. Qed.

(** X3: the conversion of lines 57-62 keeps the names, their order and the
    leading length of every input, so the converted inputs pass or fail the
    length check as the supplied ones do; and converting what has been
    converted changes nothing. *)
Theorem convert_inputs_stable (kw : dict string value) :
  dict_wf kw →
  ∃ feed,
    ONNXModel.convert_inputs kw = Return feed ∧
    keys feed = keys kw ∧
    ONNXModel.check_lengths feed = ONNXModel.check_lengths kw ∧
    ONNXModel.convert_inputs feed = Return feed.
Proof.
  intros Hwf. exists (prod_map id fed <$> kw).
  assert (Hfeed : dict_wf (prod_map id fed <$> kw)).
  { unfold dict_wf. by rewrite keys_fed. }
  split_and!.
  - by apply convert_inputs_fed.
  - apply keys_fed.
  - unfold ONNXModel.check_lengths. rewrite !lengths_of_values by done.
    unfold values. rewrite <- list_fmap_compose, !comprehension_fmap.
    erewrite comprehension_ext; [done|]. intros [k v] _. simpl. apply len_fed.
  - rewrite convert_inputs_fed by done. f_equal.
    rewrite <- list_fmap_compose. apply list_fmap_ext. intros _ [k v] _.
    simpl. unfold prod_map. simpl. by rewrite fed_fed.
Qed.

Lemma convert_inputs_stable_witness :
  ∃ feed,
    ONNXModel.convert_inputs
      [("x"%string, Fixtures.doubles 3); ("y"%string, VList [VNum (EInt 1)])]
    = Return feed ∧
    keys feed = ["x"; "y"]%string ∧
    ONNXModel.check_lengths feed = Raise (ValueError MsgSameLength) ∧
    ONNXModel.convert_inputs feed = Return feed.
Proof.
  assert (Hwf : dict_wf [("x"%string, Fixtures.doubles 3);
                         ("y"%string, VList [VNum (EInt 1)])]).
  { apply (bool_decide_unpack _). vm_compute. exact I. }
  destruct (convert_inputs_stable _ Hwf) as (feed & Hconv & Hkeys & Hlen & Hagain).
  exists feed. split_and!; [exact Hconv | exact Hkeys | | exact Hagain].
  rewrite Hlen. vm_compute. reflexivity.
Defined.

(** ** DeepLearningReconstructor.predict: one observation *)

(** X4: a telescope input that is neither a list nor a dict is bound to the
    only input of a one-input model: if it has a length the backend runs on
    it (converted) under the name of that input, if it has none the call
    ends in TypeError; for a model with two inputs or more the call fails
    with the count error for one argument. *)
Theorem call_model_bare (model : ONNXModel.t) (inp : value) :
  (∀ items, inp ≠ VList items) → (∀ entries, inp ≠ VDict entries) →
  (∀ slot, ONNXModel.inputs model = [slot] →
     (∀ n, len inp = Return n →
        DeepLearningReconstructor.call_model model inp
        = run (ONNXModel.sess model) [(name slot, fed inp)]) ∧
     (¬ has_len inp →
        DeepLearningReconstructor.call_model model inp = Raise TypeError)) ∧
  (2 ≤ length (ONNXModel.inputs model) →
   DeepLearningReconstructor.call_model model inp
   = Raise (ValueError (MsgArgumentCount 1 (length (ONNXModel.inputs model))))).
Proof.
  intros Hlist Hdict.
  assert (Hcall : DeepLearningReconstructor.call_model model inp
                  = ONNXModel.predict model [inp] []).
  { destruct inp; try done; [by destruct (Hlist items) | by destruct (Hdict entries)]. }
  rewrite Hcall. split.
  - intros slot Hslot. unfold ONNXModel.predict, ONNXModel.check_arguments,
      ONNXModel.bind_positional, ONNXModel.check_lengths, ONNXModel.convert_inputs.
    rewrite Hslot. simpl. unfold getitem. simpl. rewrite decide_True by done. simpl.
    split.
    + intros n ->. simpl.
      destruct inp as [a| | | |]; simpl; try done.
      case_decide; simpl; [by rewrite decide_True | done].
    + intros Hno. destruct (len inp) as [n|e] eqn:Hlen; [exfalso; apply Hno; by exists n|].
      simpl. by rewrite (len_raises inp e Hlen).
  - intros HN.
    unfold ONNXModel.predict.
    rewrite (check_arguments_count model [inp] []); [done | | lia | simpl; lia].
    right. by split.
Qed.

Lemma call_model_bare_witness :
  DeepLearningReconstructor.call_model (Fixtures.echo_model ["x"%string])
    (Fixtures.doubles 3)
  = Return [Fixtures.singles 3] ∧
  DeepLearningReconstructor.call_model (Fixtures.echo_model ["x"; "y"]%string)
    (Fixtures.doubles 3)
  = Raise (ValueError (MsgArgumentCount 1 2)).
Proof.
  split.
  - destruct (call_model_bare (Fixtures.echo_model ["x"%string]) (Fixtures.doubles 3))
      as [Hone _]; [discriminate | discriminate |].
    destruct (Hone {| name := "x"%string |} eq_refl) as [Hrun _].
    rewrite (Hrun 3 eq_refl). vm_compute. reflexivity.
  - destruct (call_model_bare (Fixtures.echo_model ["x"; "y"]%string)
                (Fixtures.doubles 3)) as [_ Hmany]; [discriminate | discriminate |].
    apply Hmany. simpl. lia.
Defined.

(** ** DeepLearningReconstructor.predict: failures *)

Section failures.
Context {Shower : Type} `{!ReconstructorVariant Shower}.
Implicit Types (self : DeepLearningReconstructor.t) (tels_dict : dict Z value)
  (subarray : SubarrayDescription).

Lemma elem_of_routed subarray (c : string) tels_dict (tel_id : Z) (inp : value) :
  (tel_id, inp) ∈ tels_dict → camera_of subarray tel_id = Some c →
  inp ∈ routed subarray c tels_dict.
Proof.
  intros Hin Hc. unfold routed. apply list_elem_of_fmap.
  exists (tel_id, inp). split; [done|]. by apply list_elem_of_filter.
Qed.

(** A batch is there only if every call on a routed input returned. *)
Lemma batch_calls_returned self tels_dict subarray (batch : PredictionBatch)
    (c : string) (model : ONNXModel.t) (inp : value) :
  dict_wf tels_dict →
  DeepLearningReconstructor.predictions_of self tels_dict subarray = Return batch →
  c ∈ supported_cameras →
  dict_get (DeepLearningReconstructor.models self) c = Some model →
  inp ∈ routed subarray c tels_dict →
  succeeds (DeepLearningReconstructor.call_model model inp).
Proof.
  intros Hwf Hbatch Hc Hm Hinp. rewrite predictions_of_steps in Hbatch.
  destruct (camera_steps_inv _ _ _ _ _ _ Hbatch) as (_ & Hkeys & Hget).
  assert (Hin : c ∈ keys batch).
  { apply Hkeys. right. split; [done|]. apply dict_get_is_Some. by rewrite Hm. }
  apply dict_get_is_Some in Hin as [outs Houts].
  destruct (Hget c outs Houts) as [[=]|(_ & model' & inps & Hm' & Hinps & Hcomp)].
  rewrite Hm in Hm'. injection Hm' as <-.
  apply obs_inputs_Return in Hinps as ->; [|done].
  apply comprehension_Return in Hcomp.
  apply list_elem_of_lookup in Hinp as [i Hi].
  destruct (Forall2_lookup_l _ _ _ _ _ Hcomp Hi) as (out & _ & Hout).
  by exists out.
Qed.

(** With a model among the supported cameras, a telescope that the array
    does not describe stops the loop at the first such camera. *)
Lemma camera_steps_unknown self tels_dict subarray (tel_id : Z) (rest : list Z)
    (cams : list string) (p : PredictionBatch) :
  dict_wf tels_dict →
  filter (fun t => camera_of subarray t = None) (keys tels_dict) = tel_id :: rest →
  (∃ c, c ∈ cams ∧ c ∈ keys (DeepLearningReconstructor.models self)) →
  for_each (camera_step self tels_dict subarray) cams p = Raise (KeyErrorTel tel_id).
Proof.
  intros Hwf Hfilter. revert p.
  induction cams as [|c0 cams IH]; intros p (c & Hc & Hm); [by apply elem_of_nil in Hc|].
  simpl.
  assert (Hstep : camera_step self tels_dict subarray p c0
                  = if decide (c0 ∈ keys (DeepLearningReconstructor.models self))
                    then Raise (KeyErrorTel tel_id) else Return p).
  { unfold camera_step.
    destruct (dict_get (DeepLearningReconstructor.models self) c0) as [model|] eqn:Hget.
    - rewrite decide_True by (apply dict_get_is_Some; by rewrite Hget).
      by rewrite obs_inputs_spec, Hfilter.
    - apply dict_get_None in Hget. by rewrite decide_False. }
  rewrite Hstep. case_decide as Hc0; [done|]. simpl. apply IH.
  exists c. split; [|done]. apply elem_of_cons in Hc as [->|Hc]; done.
Qed.

(** Cameras without a model leave the batch as it is. *)
Lemma camera_steps_no_model self tels_dict subarray (cams : list string)
    (p : PredictionBatch) :
  (∀ c, c ∈ cams → c ∉ keys (DeepLearningReconstructor.models self)) →
  for_each (camera_step self tels_dict subarray) cams p = Return p.
Proof.
  induction cams as [|c cams IH]; intros Hnone; simpl; [done|].
  assert (Hstep : camera_step self tels_dict subarray p c = Return p).
  { unfold camera_step.
    assert (Hc : dict_get (DeepLearningReconstructor.models self) c = None).
    { apply dict_get_None, Hnone. left. }
    by rewrite Hc. }
  rewrite Hstep. simpl. apply IH. intros c' Hc'. apply Hnone. by right.
Qed.

(** X5: [predict] returns a shower only through [_reconstruct], on a batch
    for which every call of a model of a supported camera on an input
    routed to it has returned: one failing call, for whatever telescope,
    leaves no result for the event. *)
Theorem predict_all_or_nothing self tels_dict subarray (shower : Shower) :
  dict_wf tels_dict →
  DeepLearningReconstructor.predict self tels_dict subarray = Return shower →
  ∃ batch,
    DeepLearningReconstructor.predictions_of self tels_dict subarray = Return batch ∧
    _reconstruct batch = Return shower ∧
    ∀ c model inp,
      c ∈ supported_cameras →
      dict_get (DeepLearningReconstructor.models self) c = Some model →
      inp ∈ routed subarray c tels_dict →
      succeeds (DeepLearningReconstructor.call_model model inp).
Proof.
  intros Hwf. unfold DeepLearningReconstructor.predict.
  intros (batch & Hbatch & Hrec)%bind_eq_Return.
  exists batch. split_and!; [done | done |].
  intros c model inp. by apply (batch_calls_returned self tels_dict subarray batch).
Qed.

(** X6: an empty list or an empty dict as the input of a telescope whose
    camera is supported and has a model makes [predict] raise, whatever
    the other telescopes and the models are. *)
Theorem predict_empty_input self tels_dict subarray (c : string) (tel_id : Z)
    (inp : value) :
  dict_wf tels_dict →
  c ∈ supported_cameras → c ∈ keys (DeepLearningReconstructor.models self) →
  (tel_id, inp) ∈ tels_dict → camera_of subarray tel_id = Some c →
  inp = VList [] ∨ inp = VDict [] →
  ¬ succeeds (DeepLearningReconstructor.predict self tels_dict subarray).
Proof.
  intros Hwf Hc Hm Hin Hcam Hinp [shower Hshower].
  unfold DeepLearningReconstructor.predict in Hshower.
  apply bind_eq_Return in Hshower as (batch & Hbatch & _).
  apply dict_get_is_Some in Hm as [model Hmodel].
  destruct (batch_calls_returned self tels_dict subarray batch c model inp)
    as [out Hout]; [done.. | by eapply elem_of_routed |].
  by destruct Hinp as [-> | ->].
Qed.

(** X7: when a supported camera has a model, an event with a telescope id
    that the array does not describe ends in the KeyError of the first such
    id of the input mapping, whatever the inputs are; when no supported
    camera has a model, the batch is empty and neither the telescopes nor
    the array are looked at. *)
Theorem predict_unknown_telescope self tels_dict subarray :
  (dict_wf tels_dict →
   ∀ tel_id rest,
     filter (fun t => camera_of subarray t = None) (keys tels_dict) = tel_id :: rest →
     (∃ c, c ∈ supported_cameras ∧ c ∈ keys (DeepLearningReconstructor.models self)) →
     DeepLearningReconstructor.predictions_of self tels_dict subarray
     = Raise (KeyErrorTel tel_id) ∧
     DeepLearningReconstructor.predict self tels_dict subarray
     = Raise (KeyErrorTel tel_id)) ∧
  ((∀ c, c ∈ supported_cameras → c ∉ keys (DeepLearningReconstructor.models self)) →
   DeepLearningReconstructor.predictions_of self tels_dict subarray = Return []).
Proof.
  split.
  - intros Hwf tel_id rest Hfilter Hex.
    assert (Hraise : DeepLearningReconstructor.predictions_of self tels_dict subarray
                     = Raise (KeyErrorTel tel_id)).
    { rewrite predictions_of_steps. by eapply camera_steps_unknown. }
    split; [done|]. unfold DeepLearningReconstructor.predict. by rewrite Hraise.
  - intros Hnone. rewrite predictions_of_steps. by apply camera_steps_no_model.
Qed.

End failures.

Lemma predict_all_or_nothing_witness :
  ∃ batch,
    @DeepLearningReconstructor.predictions_of _ Fixtures.lst_flash_nectar
      Fixtures.lst_only [(1%Z, VList [Fixtures.doubles 3])]
      Fixtures.array_lst_lst_flash = Return batch ∧
    Fixtures.lst_flash_nectar.(_reconstruct) batch = Return [[Fixtures.singles 3]].
Proof.
  assert (Hwf : dict_wf [(1%Z, VList [Fixtures.doubles 3])]).
  { apply (bool_decide_unpack _). vm_compute. exact I. }
  destruct (@predict_all_or_nothing _ Fixtures.lst_flash_nectar Fixtures.lst_only
              [(1%Z, VList [Fixtures.doubles 3])] Fixtures.array_lst_lst_flash
              [[Fixtures.singles 3]] Hwf) as (batch & Hbatch & Hrec & _).
  - vm_compute. reflexivity.
  - by exists batch.
Defined.

Lemma predict_empty_input_witness :
  ¬ succeeds (@DeepLearningReconstructor.predict _ Fixtures.lst_flash_nectar
                Fixtures.lst_only
                [(1%Z, VList [Fixtures.doubles 3]); (2%Z, VList [])]
                Fixtures.array_lst_lst_flash).
Proof.
  apply (@predict_empty_input _ Fixtures.lst_flash_nectar Fixtures.lst_only
           [(1%Z, VList [Fixtures.doubles 3]); (2%Z, VList [])]
           Fixtures.array_lst_lst_flash "LSTCam"%string 2%Z (VList [])).
  - apply (bool_decide_unpack _). vm_compute. exact I.
  - left.
  - left.
  - right. left.
  - vm_compute. reflexivity.
  - by left.
Defined.

Lemma predict_unknown_telescope_witness :
  @DeepLearningReconstructor.predict _ Fixtures.lst_flash_nectar
    Fixtures.flash_and_lst
    [(1%Z, VList [Fixtures.doubles 3]); (7%Z, VList []); (9%Z, VList [])]
    Fixtures.array_lst_lst_flash
  = Raise (KeyErrorTel 7).
Proof.
  destruct (@predict_unknown_telescope _ Fixtures.lst_flash_nectar
              Fixtures.flash_and_lst
              [(1%Z, VList [Fixtures.doubles 3]); (7%Z, VList []); (9%Z, VList [])]
              Fixtures.array_lst_lst_flash) as [Hunknown _].
  apply (Hunknown ltac:(apply (bool_decide_unpack _); vm_compute; exact I)
           7%Z [9%Z] ltac:(vm_compute; reflexivity)).
  exists "LSTCam"%string. split; [left | right; left].
Defined.

(** ** DeepLearningReconstructor.predict: the shape of the batch *)

Section shape.
Context {Shower : Type}.
Implicit Types (self : DeepLearningReconstructor.t) (tels_dict : dict Z value)
  (subarray : SubarrayDescription).

(** Each camera met for the first time goes to the end of the batch. *)
Lemma camera_steps_keys self tels_dict subarray (cams : list string)
    (p p' : PredictionBatch) :
  NoDup cams → (∀ c, c ∈ cams → c ∉ keys p) →
  for_each (camera_step self tels_dict subarray) cams p = Return p' →
  keys p' = keys p ++
            filter (fun c => c ∈ keys (DeepLearningReconstructor.models self)) cams.
Proof.
  revert p. induction cams as [|c0 cams IH]; intros p Hnd Hfresh; simpl.
  - intros [= <-]. by rewrite app_nil_r.
  - intros (p1 & Hstep & Hrest)%bind_eq_Return.
    apply NoDup_cons in Hnd as [Hc0 Hnd]. unfold camera_step in Hstep.
    destruct (dict_get (DeepLearningReconstructor.models self) c0) as [model|] eqn:Hm.
    + apply bind_eq_Return in Hstep as (inps & _ & Hstep).
      apply bind_eq_Return in Hstep as (outs & _ & [= <-]).
      rewrite filter_cons_True by (apply dict_get_is_Some; by rewrite Hm).
      rewrite dict_set_fresh in Hrest by (apply Hfresh; left).
      rewrite (IH _ Hnd) with (2 := Hrest).
      * unfold keys. rewrite fmap_app, <- app_assoc. done.
      * intros c Hc. unfold keys. rewrite fmap_app. simpl.
        intros [Hin|Hin%list_elem_of_singleton]%elem_of_app.
        -- eapply Hfresh; [by right | done].
        -- by subst.
    + injection Hstep as <-.
      rewrite filter_cons_False by (by apply dict_get_None).
      apply (IH _ Hnd); [|done]. intros c Hc. apply Hfresh. by right.
Qed.

(** X8: when the supported cameras are declared without repetition, the
    keys of the batch are the supported cameras that have a model in the
    order of that declaration, not in the order of the configuration. *)
Theorem predictions_key_order `{!ReconstructorVariant Shower} self tels_dict subarray
    (batch : PredictionBatch) :
  NoDup supported_cameras →
  DeepLearningReconstructor.predictions_of self tels_dict subarray = Return batch →
  keys batch
  = filter (fun c => c ∈ keys (DeepLearningReconstructor.models self))
           supported_cameras.
Proof.
  intros Hnd Hbatch. rewrite predictions_of_steps in Hbatch.
  apply camera_steps_keys in Hbatch; [done | done |].
  intros c _. apply not_elem_of_nil.
Qed.

(** X9: under each key of the batch there are as many outputs as the event
    has telescopes with that camera. *)
Theorem predictions_entry_count `{!ReconstructorVariant Shower} self tels_dict subarray
    (batch : PredictionBatch) (c : string) (outs : list (list value)) :
  dict_wf tels_dict →
  DeepLearningReconstructor.predictions_of self tels_dict subarray = Return batch →
  dict_get batch c = Some outs →
  length outs
  = length (filter (fun x => camera_of subarray x.1 = Some c) tels_dict).
Proof.
  intros Hwf Hbatch Houts. rewrite predictions_of_steps in Hbatch.
  destruct (camera_steps_inv _ _ _ _ _ _ Hbatch) as (_ & _ & Hget).
  destruct (Hget c outs Houts) as [[=]|(_ & model & inps & _ & Hinps & Hcomp)].
  apply obs_inputs_Return in Hinps as ->; [|done].
  apply comprehension_Return, Forall2_length in Hcomp.
  rewrite <- Hcomp. unfold routed. by rewrite length_fmap.
Qed.

(** X10: as a mapping, the batch depends on which cameras are supported, not
    on the order of their declaration nor on repetitions in it: two
    declarations with the same cameras give the same outputs under every
    camera. *)
Theorem predictions_supported_set (V1 V2 : ReconstructorVariant Shower)
    self tels_dict subarray (b1 b2 : PredictionBatch) :
  dict_wf tels_dict →
  (∀ c, c ∈ V1.(supported_cameras) ↔ c ∈ V2.(supported_cameras)) →
  @DeepLearningReconstructor.predictions_of _ V1 self tels_dict subarray = Return b1 →
  @DeepLearningReconstructor.predictions_of _ V2 self tels_dict subarray = Return b2 →
  ∀ c, dict_get b1 c = dict_get b2 c.
Proof.
  intros Hwf Hsame H1 H2 c.
  rewrite (@predictions_of_steps _ V1) in H1. rewrite (@predictions_of_steps _ V2) in H2.
  destruct (camera_steps_inv _ _ _ _ _ _ H1) as (_ & Hkeys1 & Hget1).
  destruct (camera_steps_inv _ _ _ _ _ _ H2) as (_ & Hkeys2 & Hget2).
  destruct (dict_get b1 c) as [outs1|] eqn:E1.
  - destruct (Hget1 c outs1 E1) as [[=]|(Hc & m1 & i1 & Hm1 & Hi1 & Hc1)].
    assert (Hin : c ∈ keys b2).
    { apply Hkeys2. right. split; [by apply Hsame|].
      apply dict_get_is_Some. by rewrite Hm1. }
    apply dict_get_is_Some in Hin as [outs2 E2]. rewrite E2.
    destruct (Hget2 c outs2 E2) as [[=]|(_ & m2 & i2 & Hm2 & Hi2 & Hc2)].
    congruence.
  - symmetry. apply dict_get_None. apply dict_get_None in E1.
    intros Hin. apply E1. apply Hkeys1. apply Hkeys2 in Hin as [Hin|[Hc Hm]].
    + by apply elem_of_nil in Hin.
    + right. split; [by apply Hsame | done].
Qed.

End shape.

Lemma predictions_key_order_witness :
  keys (DeepLearningReconstructor.models Fixtures.flash_and_lst)
  = ["FlashCam"; "LSTCam"]%string ∧
  ∃ batch,
    @DeepLearningReconstructor.predictions_of _ Fixtures.lst_flash_nectar
      Fixtures.flash_and_lst [(3%Z, Fixtures.doubles 3)]
      Fixtures.array_lst_lst_flash = Return batch ∧
    keys batch = ["LSTCam"; "FlashCam"]%string.
Proof.
  split; [reflexivity|].
  exists [("LSTCam"%string, []); ("FlashCam"%string, [[Fixtures.singles 3]])].
  assert (Hrun : @DeepLearningReconstructor.predictions_of _ Fixtures.lst_flash_nectar
                   Fixtures.flash_and_lst [(3%Z, Fixtures.doubles 3)]
                   Fixtures.array_lst_lst_flash
                 = Return [("LSTCam"%string, []);
                           ("FlashCam"%string, [[Fixtures.singles 3]])])
    by (vm_compute; reflexivity).
  split; [exact Hrun|].
  rewrite (@predictions_key_order _ Fixtures.lst_flash_nectar Fixtures.flash_and_lst
             [(3%Z, Fixtures.doubles 3)] Fixtures.array_lst_lst_flash _
             ltac:(apply (bool_decide_unpack _); vm_compute; exact I) Hrun).
  vm_compute. reflexivity.
Defined.

Lemma predictions_entry_count_witness :
  length [[Fixtures.singles 3]; [Fixtures.singles 1]]
  = length (filter (fun x => camera_of Fixtures.array_lst_lst_flash x.1
                             = Some "LSTCam"%string)
              [(1%Z, VList [Fixtures.doubles 3]); (3%Z, Fixtures.doubles 2);
               (2%Z, VDict [("x"%string, Fixtures.doubles 1)])]).
Proof.
  apply (@predictions_entry_count _ Fixtures.lst_flash_nectar Fixtures.lst_only
           [(1%Z, VList [Fixtures.doubles 3]); (3%Z, Fixtures.doubles 2);
            (2%Z, VDict [("x"%string, Fixtures.doubles 1)])]
           Fixtures.array_lst_lst_flash
           [("LSTCam"%string, [[Fixtures.singles 3]; [Fixtures.singles 1]])]
           "LSTCam"%string).
  - apply (bool_decide_unpack _). vm_compute. exact I.
  - vm_compute. reflexivity.
  - vm_compute. reflexivity.
Defined.

Lemma predictions_supported_set_witness :
  dict_get [("LSTCam"%string, []); ("FlashCam"%string, [[Fixtures.singles 3]])]
           "FlashCam"%string
  = dict_get [("FlashCam"%string, [[Fixtures.singles 3]]); ("LSTCam"%string, [])]
             "FlashCam"%string.
Proof.
  apply (predictions_supported_set Fixtures.lst_flash_nectar
           Fixtures.flash_lst_nectar_flash Fixtures.flash_and_lst
           [(3%Z, Fixtures.doubles 3)] Fixtures.array_lst_lst_flash).
  - apply (bool_decide_unpack _). vm_compute. exact I.
  - intros c. simpl. rewrite !elem_of_cons. rewrite !elem_of_nil. tauto.
  - vm_compute. reflexivity.
  - vm_compute. reflexivity.
Defined.

(** ** DeepLearningReconstructor.__init__: what a failure and a success say *)

Section init_more.
Context {Shower : Type} `{!ReconstructorVariant Shower}.
Context (open : string → result InferenceSession).

Lemma for_each_app {A S : Type} (body : S → A → result S) (xs ys : list A) (s : S) :
  for_each body (xs ++ ys) s = (s' ← for_each body xs s; for_each body ys s').
Proof.
  revert s. induction xs as [|x xs IH]; intros s; simpl; [done|].
  destruct (body s x) as [s'|e]; simpl; [apply IH | done].
Qed.

(** X11: construction ends at the first configured file that does not
    open, with ModelLoadError naming that file when the backend raised
    RuntimeError and with the exception of the backend otherwise; this
    comes before the check of the supported cameras and before the
    initialiser of the base class, whatever their outcomes would be. *)
Theorem init_first_unopened (super_init : result unit)
    (pre rest : dict string string) (cam_name path : string) (e : exn) :
  dict_wf (pre ++ (cam_name, path) :: rest) →
  (∀ c p, (c, p) ∈ pre → succeeds (open p)) →
  open path = Raise e →
  DeepLearningReconstructor.__init__ open super_init (pre ++ (cam_name, path) :: rest)
  = Raise (match e with
           | RuntimeError => ValueError (MsgNotLoaded path)
           | _ => e
           end).
Proof.
  intros Hwf Hpre Hopen. unfold DeepLearningReconstructor.__init__.
  rewrite for_each_app.
  destruct (load_models_loop open pre []) as (models & Hload & _); [| done |].
  { unfold dict_wf, keys in Hwf. rewrite fmap_app in Hwf.
    by apply NoDup_app in Hwf as (? & _ & _). }
  rewrite Hload. simpl. unfold ONNXModel.__init__. rewrite Hopen.
  by destruct e.
Qed.

(** What the loading loop has done when it returns. *)
Lemma load_models_Return (models_paths : dict string string)
    (pre models : dict string ONNXModel.t) :
  NoDup (keys pre ++ keys models_paths) →
  for_each (fun models '(cam_name, path) =>
              m ← ONNXModel.__init__ open path;
              Return (dict_set models cam_name m))
           models_paths pre = Return models →
  ∃ new, models = pre ++ new ∧
         Forall2 (fun x y => x.1 = y.1 ∧ open x.2 = Return (ONNXModel.sess y.2))
                 models_paths new.
Proof.
  revert pre. induction models_paths as [|[c p] paths IH]; intros pre Hnd; simpl.
  - intros [= <-]. exists []. by rewrite app_nil_r.
  - intros (models1 & Hstep & Hrest)%bind_eq_Return.
    apply bind_eq_Return in Hstep as (m & Hm & [= <-]).
    unfold keys in *. csimpl in *.
    apply NoDup_app in Hnd as Hnd'. destruct Hnd' as (_ & Hdisj & _).
    rewrite dict_set_fresh in Hrest by (intros Hin; apply (Hdisj _ Hin); left).
    destruct (IH (pre ++ [(c, m)])) as (new & -> & Hnew); [| done |].
    { by rewrite fmap_app, <- app_assoc. }
    exists ((c, m) :: new). rewrite <- app_assoc. split; [done|].
    constructor; [|done]. split; [done|]. simpl.
    unfold ONNXModel.__init__ in Hm.
    destruct (open p) as [s|[]]; try done. by injection Hm as <-.
Qed.

(** X12: a reconstructor that has been constructed has one model for each
    configured camera, in the order of the configuration, made from the
    session that the backend opened for the configured path; all these
    cameras are supported and the initialiser of the base class has
    returned. *)
Theorem init_returned (super_init : result unit) (models_paths : dict string string)
    (self : DeepLearningReconstructor.t) :
  dict_wf models_paths →
  DeepLearningReconstructor.__init__ open super_init models_paths = Return self →
  keys (DeepLearningReconstructor.models self) = keys models_paths ∧
  (∀ c, c ∈ keys models_paths → c ∈ supported_cameras) ∧
  super_init = Return () ∧
  ∀ c p, (c, p) ∈ models_paths →
    ∃ model, dict_get (DeepLearningReconstructor.models self) c = Some model ∧
             open p = Return (ONNXModel.sess model).
Proof.
  intros Hwf Hinit. unfold DeepLearningReconstructor.__init__ in Hinit.
  apply bind_eq_Return in Hinit as (models & Hload & Hrest).
  case_decide as Hlen; [done|].
  apply bind_eq_Return in Hrest as ([] & Hsuper & [= <-]). simpl.
  destruct (load_models_Return models_paths [] models Hwf Hload) as (new & -> & Hnew).
  simpl in *.
  assert (Hkeys : keys new = keys models_paths).
  { clear -Hnew. unfold keys. induction Hnew as [|[c p] [c' m] ? ? [Hc _] _ IH]; [done|].
    csimpl. simpl in Hc. by rewrite Hc, IH. }
  split_and!; [done | | done |].
  - intros c Hc. destruct (decide (c ∈ supported_cameras)) as [|Hno]; [done|].
    exfalso. apply Hlen.
    assert (Hin : c ∈ filter (fun cam_name => cam_name ∉ supported_cameras) (keys new)).
    { apply list_elem_of_filter. by rewrite Hkeys. }
    destruct (filter _ _); [by apply elem_of_nil in Hin | simpl; lia].
  - intros c p Hin. apply list_elem_of_lookup in Hin as [i Hi].
    destruct (Forall2_lookup_l _ _ _ _ _ Hnew Hi) as ([c' m] & Hm & Hc & Hopen).
    simpl in *. subst c'. exists m. split; [|done].
    apply dict_get_elem; [by unfold dict_wf; rewrite Hkeys|].
    by eapply list_elem_of_lookup_2.
Qed.

End init_more.

Lemma init_first_unopened_witness :
  @DeepLearningReconstructor.__init__ _ Fixtures.lst_flash_nectar Fixtures.open_file
    (Return ()) [("LSTCam", "lst.onnx"); ("CHEC", "missing.onnx")]%string
  = Raise (ValueError (MsgNotLoaded "missing.onnx")).
Proof.
  apply (@init_first_unopened _ Fixtures.lst_flash_nectar Fixtures.open_file
           (Return ()) [("LSTCam", "lst.onnx")]%string [] "CHEC"%string
           "missing.onnx"%string RuntimeError).
  - apply (bool_decide_unpack _). vm_compute. exact I.
  - intros c p [= -> ->]%list_elem_of_singleton. by eexists.
  - reflexivity.
Defined.

Lemma init_returned_witness :
  keys (DeepLearningReconstructor.models Fixtures.lst_only) = ["LSTCam"%string] ∧
  ∃ model, dict_get (DeepLearningReconstructor.models Fixtures.lst_only)
             "LSTCam"%string = Some model ∧
           Fixtures.open_file "lst.onnx"%string = Return (ONNXModel.sess model).
Proof.
  destruct (@init_returned _ Fixtures.lst_flash_nectar Fixtures.open_file (Return ())
              [("LSTCam", "lst.onnx")]%string Fixtures.lst_only)
    as (Hkeys & _ & _ & Hmodels).
  - apply (bool_decide_unpack _). vm_compute. exact I.
  - vm_compute. reflexivity.
  - split; [exact Hkeys|]. apply Hmodels. left.
Defined.

(** ** ONNXModel.predict on the store: sharing among the arguments *)

(** X13: the outcome of a call depends on the values that the argument
    objects hold and on nothing else of the store: two calls whose arguments
    hold the same values, be they the same objects or not, and whether one
    object is passed once or several times, raise the same exception or
    return references to the same outputs. *)
Theorem predict_by_value (m : ONNXModel.t) (argvs : list value)
    (namedvs : dict string value)
    (self1 self2 : Heap.loc) (args1 args2 : list Heap.loc)
    (named1 named2 : dict string Heap.loc) (h1 h2 : gmap Heap.loc Heap.cell) :
  h1 !! self1 = Some (Heap.CModel m) → h2 !! self2 = Some (Heap.CModel m) →
  Forall2 (Heap.points_to h1) args1 argvs → Forall2 (Heap.points_to h2) args2 argvs →
  Heap.represents h1 named1 namedvs → Heap.represents h2 named2 namedvs →
  match (Heap.predict self1 args1 named1 h1).1,
        (Heap.predict self2 args2 named2 h2).1 with
  | Raise e1, Raise e2 => e1 = e2
  | Return locs1, Return locs2 =>
      ∃ outs,
        Forall2 (Heap.points_to (Heap.predict self1 args1 named1 h1).2) locs1 outs ∧
        Forall2 (Heap.points_to (Heap.predict self2 args2 named2 h2).2) locs2 outs
  | _, _ => False
  end.
Proof.
  intros Hs1 Hs2 Ha1 Ha2 Hn1 Hn2.
  destruct (predict_on_store self1 m args1 argvs named1 namedvs h1 Hs1 Ha1 Hn1)
    as (r1 & h1' & Hrun1 & Hres1).
  destruct (predict_on_store self2 m args2 argvs named2 namedvs h2 Hs2 Ha2 Hn2)
    as (r2 & h2' & Hrun2 & Hres2).
  rewrite Hrun1, Hrun2. simpl.
  destruct (ONNXModel.predict m argvs namedvs) as [outs|e].
  - destruct Hres1 as (locs1 & -> & Hl1), Hres2 as (locs2 & -> & Hl2). by exists outs.
  - by subst.
Qed.

Lemma predict_by_value_witness :
  ∃ outs,
    Forall2 (Heap.points_to (Heap.predict 0 [1; 1] [] Fixtures.store_two_arrays).2)
            [6; 7] outs ∧
    Forall2 (Heap.points_to (Heap.predict 0 [1; 2] [] Fixtures.store_two_arrays).2)
            [6; 7] outs.
Proof.
  pose proof (predict_by_value (Fixtures.echo_model ["x"; "y"]%string)
                [Fixtures.doubles 3; Fixtures.doubles 3] []
                0 0 [1; 1] [1; 2] [] [] Fixtures.store_two_arrays
                Fixtures.store_two_arrays) as H.
  assert (E1 : (Heap.predict 0 [1; 1] [] Fixtures.store_two_arrays).1 = Return [6; 7])
    by (vm_compute; reflexivity).
  assert (E2 : (Heap.predict 0 [1; 2] [] Fixtures.store_two_arrays).1 = Return [6; 7])
    by (vm_compute; reflexivity).
  rewrite E1, E2 in H. apply H.
  - vm_compute. reflexivity.
  - vm_compute. reflexivity.
  - repeat constructor.
  - repeat constructor.
  - constructor.
  - constructor.
Defined.

(** ** hessio_event_source: how many events, and which *)

Section hessio_events.
Import Hessio.

(** The telescopes of an event change the data and the two caches only. *)
Lemma read_telescopes_ids (ev : LibEvent) (tels : list Z) (cont : Container) :
  run_id (foldl (read_telescope ev) cont tels) = run_id cont ∧
  event_id (foldl (read_telescope ev) cont tels) = event_id cont ∧
  tels_with_data (foldl (read_telescope ev) cont tels) = tels_with_data cont ∧
  meta_input (foldl (read_telescope ev) cont tels) = meta_input cont ∧
  meta_max_events (foldl (read_telescope ev) cont tels) = meta_max_events cont.
Proof.
  revert cont. induction tels as [|t tels IH]; intros cont; simpl; [done|].
  destruct (IH (read_telescope ev cont t)) as (-> & -> & -> & -> & ->).
  unfold read_telescope.
  destruct (decide (t ∈ keys (pixel_pos cont))); simpl;
    destruct (defaultdict_int_get _ t); destruct (foldl _ _ (seqZ 0 _)); done.
Qed.

Lemma read_event_ids (ev : LibEvent) (cont : Container) :
  run_id (read_event ev cont) = Some (lib_run_id ev) ∧
  event_id (read_event ev cont) = Some (lib_event_id ev) ∧
  tels_with_data (read_event ev cont) = Some (get_teldata_list ev).
Proof.
  unfold read_event.
  by destruct (read_telescopes_ids ev (get_teldata_list ev)
    {| run_id := Some (lib_run_id ev); event_id := Some (lib_event_id ev);
       tels_with_data := Some (get_teldata_list ev);
       sampledata := Some []; sumdata := Some [];
       num_channels := num_channels cont; pixel_pos := pixel_pos cont;
       meta_input := meta_input cont; meta_max_events := meta_max_events cont |})
    as (-> & -> & -> & _).
Qed.

Lemma events_count (n : Z) (stream : list LibEvent) (cont : Container) (counter : Z) :
  (events (Some n) stream cont counter).2 = Finished ∧
  length (events (Some n) stream cont counter).1
  = length stream `min` (Z.to_nat (Z.max (n - counter) 0) + 1) ∧
  event_id <$> (events (Some n) stream cont counter).1
  = (fun ev => Some (lib_event_id ev))
      <$> take (length (events (Some n) stream cont counter).1) stream.
Proof.
  revert cont counter. induction stream as [|ev stream IH]; intros cont counter.
  - done.
  - destruct (read_event_ids ev cont) as (_ & Hid & _).
    cbn [events]. case_decide as Hn.
    + cbn [fst snd length fmap list_fmap take]. rewrite Hid.
      split_and!; [done | | done]. cbn [length]. lia.
    + specialize (IH (read_event ev cont) (counter + 1)%Z).
      destruct (events (Some n) stream (read_event ev cont) (counter + 1)) as [ys e].
      cbn [fst snd] in *. destruct IH as (-> & Hlen & Hids).
      split_and!; [done | | ].
      * cbn [length]. rewrite Hlen. lia.
      * cbn [length take]. rewrite !fmap_cons. by rewrite Hid, Hids.
Qed.

(** X14: on a file that opens, with an integer [max_events], the source
    yields the events of the file in their order and returns after
    [max_events + 1] of them (after one when [max_events] is negative), or
    at the end of the file if that comes first: one event more than
    [max_events]. *)
Theorem hessio_event_source_count (file : File) (url : string) (n : Z) :
  file_open file = 0%Z →
  (hessio_event_source file url (Some n)).2 = Finished ∧
  length (hessio_event_source file url (Some n)).1
  = length (move_to_next_event file) `min` (Z.to_nat (Z.max n 0) + 1) ∧
  event_id <$> (hessio_event_source file url (Some n)).1
  = (fun ev => Some (lib_event_id ev))
      <$> take (length (hessio_event_source file url (Some n)).1)
               (move_to_next_event file).
Proof.
  intros Hopen. unfold hessio_event_source. rewrite decide_False by (by intros ?).
  match goal with |- context [events _ _ ?c _] =>
    destruct (events_count n (move_to_next_event file) c 0) as (He & Hlen & Hids) end.
  split_and!; [done | | done]. rewrite Hlen. by rewrite Z.sub_0_r.
Qed.

(** X15: the two ways in which the source ends without having gone
    through its events.  When [file_open] does not return 0 it raises
    RuntimeError before anything is yielded, whatever the file holds.  With
    [max_events] left at [None] it yields the first event and then, at the
    comparison of the counter with [None], raises TypeError. *)
Theorem hessio_event_source_stops (file : File) (url : string) :
  (file_open file ≠ 0%Z →
   ∀ max_events,
     hessio_event_source file url max_events = ([], Raised RuntimeError)) ∧
  (file_open file = 0%Z →
   ∀ ev rest, move_to_next_event file = ev :: rest →
     ∃ cont, hessio_event_source file url None = ([cont], Raised TypeError) ∧
             event_id cont = Some (lib_event_id ev) ∧
             tels_with_data cont = Some (get_teldata_list ev)).
Proof.
  unfold hessio_event_source. split.
  - intros Hopen max_events. by rewrite decide_True.
  - intros Hopen ev rest Hstream. rewrite decide_False by (by intros ?).
    rewrite Hstream. simpl. eexists. split; [done|].
    match goal with |- context [read_event ev ?c] =>
      destruct (read_event_ids ev c) as (_ & Hid & Htels) end.
    done.
Qed.

End hessio_events.

Lemma hessio_event_source_count_witness :
  length (Hessio.hessio_event_source Fixtures.three_events "gamma.simtel.gz" (Some 1%Z)).1
  = 2 ∧
  Hessio.event_id
    <$> (Hessio.hessio_event_source Fixtures.three_events "gamma.simtel.gz" (Some 1%Z)).1
  = [Some 408%Z; Some 409%Z].
Proof.
  destruct (hessio_event_source_count Fixtures.three_events "gamma.simtel.gz" 1 eq_refl)
    as (_ & Hlen & Hids).
  split; [exact Hlen|]. rewrite Hids, Hlen. reflexivity.
Defined.

Lemma hessio_event_source_stops_witness :
  Hessio.hessio_event_source
    {| Hessio.file_open := -1; Hessio.move_to_next_event := [] |} "nofile" (Some 5%Z)
  = ([], Hessio.Raised RuntimeError) ∧
  ∃ cont,
    Hessio.hessio_event_source Fixtures.three_events "gamma.simtel.gz" None
    = ([cont], Hessio.Raised TypeError) ∧
    Hessio.event_id cont = Some 408%Z ∧ Hessio.tels_with_data cont = Some [1%Z].
Proof.
  split.
  - destruct (hessio_event_source_stops
                {| Hessio.file_open := -1; Hessio.move_to_next_event := [] |} "nofile")
      as [Hfail _].
    apply Hfail. discriminate.
  - destruct (hessio_event_source_stops Fixtures.three_events "gamma.simtel.gz")
      as [_ Hnone].
    apply (Hnone eq_refl (Fixtures.lib_event 408 [1%Z] 2)
             [Fixtures.lib_event 409 [2%Z] 1; Fixtures.lib_event 803 [1%Z; 2%Z] 1]).
    reflexivity.
Defined.

(** ** hessio_event_source: what is kept from one event to the next *)

Section hessio_caches.
Import Hessio.

Lemma read_telescope_caches (ev : LibEvent) (cont : Container) (t : Z) :
  keys (pixel_pos cont) = keys (num_channels cont) →
  keys (pixel_pos (read_telescope ev cont t))
  = keys (num_channels (read_telescope ev cont t)) ∧
  ∀ t',
    dict_get (pixel_pos (read_telescope ev cont t)) t'
    = kept_or (dict_get (pixel_pos cont) t')
              (if decide (t' = t) then Some (get_pixel_position ev t) else None) ∧
    dict_get (num_channels (read_telescope ev cont t)) t'
    = kept_or (dict_get (num_channels cont) t')
              (if decide (t' = t) then Some (get_num_channel ev t) else None).
Proof.
  intros Hkeys. unfold read_telescope.
  destruct (decide (t ∈ keys (pixel_pos cont))) as [Hin|Hnin].
  - assert (Hn : is_Some (dict_get (num_channels cont) t)).
    { apply dict_get_is_Some. by rewrite <- Hkeys. }
    destruct Hn as [n Hn]. unfold defaultdict_int_get. rewrite Hn.
    destruct (foldl _ _ (seqZ 0 n)). simpl. split; [done|].
    intros t'. apply dict_get_is_Some in Hin as [p Hp].
    case_decide; subst; [by rewrite Hp, Hn | by split; destruct (dict_get _ t')].
  - unfold defaultdict_int_get. rewrite dict_get_set_eq.
    destruct (foldl _ _ (seqZ 0 _)). simpl.
    assert (Hp : dict_get (pixel_pos cont) t = None) by (by apply dict_get_None).
    assert (Hn : dict_get (num_channels cont) t = None).
    { apply dict_get_None. by rewrite <- Hkeys. }
    split.
    + rewrite !dict_set_fresh by (apply dict_get_None; done).
      unfold keys in *. by rewrite !fmap_app, Hkeys.
    + intros t'. case_decide; subst.
      * by rewrite !dict_get_set_eq, Hp, Hn.
      * rewrite !dict_get_set_ne by done.
        by split; destruct (dict_get _ t').
Qed.

Lemma read_telescopes_caches (ev : LibEvent) (tels : list Z) (cont : Container) :
  keys (pixel_pos cont) = keys (num_channels cont) →
  keys (pixel_pos (foldl (read_telescope ev) cont tels))
  = keys (num_channels (foldl (read_telescope ev) cont tels)) ∧
  ∀ t',
    dict_get (pixel_pos (foldl (read_telescope ev) cont tels)) t'
    = kept_or (dict_get (pixel_pos cont) t')
              (if decide (t' ∈ tels) then Some (get_pixel_position ev t') else None) ∧
    dict_get (num_channels (foldl (read_telescope ev) cont tels)) t'
    = kept_or (dict_get (num_channels cont) t')
              (if decide (t' ∈ tels) then Some (get_num_channel ev t') else None).
Proof.
  revert cont. induction tels as [|t tels IH]; intros cont Hkeys; simpl.
  - split; [done|]. intros t'.
    destruct (decide (t' ∈ [])) as [Hin|_]; [by apply elem_of_nil in Hin|].
    by split; destruct (dict_get _ t').
  - destruct (read_telescope_caches ev cont t Hkeys) as [Hkeys1 Hget1].
    destruct (IH _ Hkeys1) as [Hkeys2 Hget2]. split; [done|].
    intros t'. destruct (Hget2 t') as [-> ->], (Hget1 t') as [-> ->].
    destruct (dict_get (pixel_pos cont) t'), (dict_get (num_channels cont) t'); simpl;
      repeat case_decide; subst; try done; exfalso; set_solver.
Qed.

Lemma read_event_caches (ev : LibEvent) (cont : Container) :
  keys (pixel_pos cont) = keys (num_channels cont) →
  keys (pixel_pos (read_event ev cont)) = keys (num_channels (read_event ev cont)) ∧
  ∀ t',
    dict_get (pixel_pos (read_event ev cont)) t'
    = kept_or (dict_get (pixel_pos cont) t')
              (if decide (t' ∈ get_teldata_list ev)
               then Some (get_pixel_position ev t') else None) ∧
    dict_get (num_channels (read_event ev cont)) t'
    = kept_or (dict_get (num_channels cont) t')
              (if decide (t' ∈ get_teldata_list ev)
               then Some (get_num_channel ev t') else None).
Proof.
  intros Hkeys. unfold read_event.
  apply (read_telescopes_caches ev (get_teldata_list ev)
    {| run_id := Some (lib_run_id ev); event_id := Some (lib_event_id ev);
       tels_with_data := Some (get_teldata_list ev);
       sampledata := Some []; sumdata := Some [];
       num_channels := num_channels cont; pixel_pos := pixel_pos cont;
       meta_input := meta_input cont; meta_max_events := meta_max_events cont |}).
  exact Hkeys.
Qed.

Lemma first_seen_cons (ev : LibEvent) (stream : list LibEvent) (t : Z) :
  first_seen (ev :: stream) t
  = if decide (t ∈ get_teldata_list ev) then Some ev else first_seen stream t.
Proof. unfold first_seen. rewrite filter_cons. by case_decide. Qed.

Lemma events_caches (max_events : option Z) (stream : list LibEvent)
    (cont : Container) (counter : Z) (i : nat) (c : Container) (t : Z) :
  keys (pixel_pos cont) = keys (num_channels cont) →
  (events max_events stream cont counter).1 !! i = Some c →
  dict_get (pixel_pos c) t
  = kept_or (dict_get (pixel_pos cont) t)
            ((fun ev => get_pixel_position ev t) <$> first_seen (take (S i) stream) t) ∧
  dict_get (num_channels c) t
  = kept_or (dict_get (num_channels cont) t)
            ((fun ev => get_num_channel ev t) <$> first_seen (take (S i) stream) t).
Proof.
  revert cont counter i. induction stream as [|ev stream IH]; intros cont counter i Hkeys;
    [done|].
  destruct (read_event_caches ev cont Hkeys) as [Hkeys1 Hget1].
  assert (Hhere : dict_get (pixel_pos (read_event ev cont)) t
            = kept_or (dict_get (pixel_pos cont) t)
                ((fun ev => get_pixel_position ev t) <$> first_seen [ev] t) ∧
          dict_get (num_channels (read_event ev cont)) t
            = kept_or (dict_get (num_channels cont) t)
                ((fun ev => get_num_channel ev t) <$> first_seen [ev] t)).
  { destruct (Hget1 t) as [-> ->]. rewrite first_seen_cons.
    by case_decide. }
  assert (Hfirst : ∀ c', [read_event ev cont] !! i = Some c' →
            dict_get (pixel_pos c') t
            = kept_or (dict_get (pixel_pos cont) t)
                ((fun ev => get_pixel_position ev t)
                   <$> first_seen (take (S i) (ev :: stream)) t) ∧
            dict_get (num_channels c') t
            = kept_or (dict_get (num_channels cont) t)
                ((fun ev => get_num_channel ev t)
                   <$> first_seen (take (S i) (ev :: stream)) t)).
  { intros c' Hc'. destruct i as [|i]; [|done]. injection Hc' as <-.
    simpl. by rewrite take_0. }
  cbn [events]. destruct max_events as [n|]; [|apply Hfirst].
  case_decide; [apply Hfirst|].
  specialize (IH (read_event ev cont) (counter + 1)%Z).
  destruct (events (Some n) stream (read_event ev cont) (counter + 1)) as [ys e].
  cbn [fst] in *. destruct i as [|i]; simpl.
  - intros [= <-]. rewrite take_0. exact Hhere.
  - intros Hc. destruct (IH i Hkeys1 Hc) as [-> ->].
    destruct (Hget1 t) as [-> ->]. rewrite first_seen_cons.
    destruct (dict_get (pixel_pos cont) t), (dict_get (num_channels cont) t);
      by case_decide.
Qed.

(** X16: in every container that the source yields, the pixel position and
    the number of channels of a telescope are those that the library gave
    during the first event, up to the one yielded, in which the telescope
    had data: they are asked for once and kept, also when the library
    would answer otherwise during a later event; a telescope that has had
    no data so far has neither. *)
Theorem hessio_event_source_caches (file : File) (url : string)
    (max_events : option Z) (i : nat) (c : Container) (t : Z) :
  (hessio_event_source file url max_events).1 !! i = Some c →
  dict_get (pixel_pos c) t
  = (fun ev => get_pixel_position ev t)
      <$> first_seen (take (S i) (move_to_next_event file)) t ∧
  dict_get (num_channels c) t
  = (fun ev => get_num_channel ev t)
      <$> first_seen (take (S i) (move_to_next_event file)) t.
Proof.
  unfold hessio_event_source. case_decide; [done|]. intros Hc.
  eapply (events_caches _ _ _ _ _ _ t) in Hc as [-> ->]; done.
Qed.

End hessio_caches.

Lemma hessio_event_source_caches_witness :
  (fun c => (dict_get (Hessio.pixel_pos c) 1%Z, dict_get (Hessio.num_channels c) 1%Z))
    <$> (Hessio.hessio_event_source Fixtures.three_events "gamma.simtel.gz" (Some 5%Z)).1 !! 2
  = Some (Some (VNum (EInt 4081)), Some 2%Z).
Proof.
  destruct ((Hessio.hessio_event_source Fixtures.three_events "gamma.simtel.gz"
               (Some 5%Z)).1 !! 2) as [c|] eqn:Hc; [|by vm_compute in Hc].
  destruct (hessio_event_source_caches _ _ _ _ _ 1%Z Hc) as [Hp Hn].
  simpl. rewrite Hp, Hn. reflexivity.
Defined.

(** ** hessio_event_source: the samples and sums of an event *)

Section hessio_samples.
Import Hessio.

Lemma dict_set_same {K V : Type} `{EqDecision K} (d : dict K V) (k : K) (v : V) :
  dict_get d k = Some v → dict_set d k v = d.
Proof.
  induction d as [|[k' v'] d IH]; simpl; [done|].
  case_decide; [by intros [= ->]; subst | intros Hget; f_equal; auto].
Qed.

Lemma dict_get_row {V : Type} (f : Z → V) (l : list Z) (k : Z) :
  k ∈ l → dict_get ((fun k => (k, f k)) <$> l) k = Some (f k).
Proof.
  induction l as [|k' l IH]; [by intros ?%elem_of_nil|].
  intros Hin. rewrite fmap_cons. simpl. case_decide; [by subst|].
  apply IH. set_solver.
Qed.

Lemma fill_row {V : Type} (f : Z → V) (chans : list Z) (row : dict Z V) :
  NoDup chans → (∀ chan, chan ∈ chans → chan ∉ keys row) →
  foldl (fun row chan => dict_set row chan (f chan)) row chans
  = row ++ ((fun k => (k, f k)) <$> chans).
Proof.
  revert row. induction chans as [|chan chans IH]; intros row Hnd Hfresh; simpl.
  - by rewrite app_nil_r.
  - apply NoDup_cons in Hnd as [Hnin Hnd].
    rewrite dict_set_fresh by (apply Hfresh; left).
    rewrite IH; [by rewrite <- app_assoc | done | ].
    intros c Hc. unfold keys. rewrite fmap_app. simpl.
    intros [Hin | Heq%list_elem_of_singleton]%elem_of_app.
    + by apply (Hfresh c); [right|].
    + by subst.
Qed.

Lemma refill_row {V : Type} (f : Z → V) (chans : list Z) (row : dict Z V) :
  (∀ chan, chan ∈ chans → dict_get row chan = Some (f chan)) →
  foldl (fun row chan => dict_set row chan (f chan)) row chans = row.
Proof.
  induction chans as [|chan chans IH]; simpl; intros Hrow; [done|].
  rewrite dict_set_same by (apply Hrow; left).
  apply IH. intros c Hc. apply Hrow. by right.
Qed.

Lemma set_channels_get (t : Z) (f : Z → value) (chans : list Z)
    (d : dict Z (dict Z value)) (t' : Z) :
  dict_get (foldl (fun d chan => set_channel d t chan (f chan)) d chans) t'
  = if decide (t' = t ∧ chans ≠ [])
    then Some (foldl (fun row chan => dict_set row chan (f chan))
                     (default [] (dict_get d t)) chans)
    else dict_get d t'.
Proof.
  revert d. induction chans as [|chan chans IH]; intros d; simpl.
  - case_decide as H; [by destruct H | done].
  - rewrite IH. unfold set_channel. rewrite dict_get_set_eq. simpl.
    destruct (decide (t' = t)) as [->|Hne].
    + rewrite (decide_True (P := t = t ∧ chan :: chans ≠ [])) by done.
      case_decide as H; [done|]. rewrite dict_get_set_eq.
      destruct chans; [done | by destruct H].
    + rewrite !decide_False by (by intros [? _]).
      by rewrite dict_get_set_ne.
Qed.

Lemma read_channels_split (t : Z) (f g : Z → value) (chans : list Z)
    (sd su : dict Z (dict Z value)) :
  foldl (fun '(sampledata, sumdata) chan =>
           (set_channel sampledata t chan (f chan), set_channel sumdata t chan (g chan)))
        (sd, su) chans
  = (foldl (fun d chan => set_channel d t chan (f chan)) sd chans,
     foldl (fun d chan => set_channel d t chan (g chan)) su chans).
Proof. revert sd su. induction chans; intros; simpl; [done | apply IHchans]. Qed.

Lemma set_channels_rows (read : Z → Z → value) (done : list Z) (t : Z)
    (n_old n_new : Z → Z) (d : dict Z (dict Z value)) :
  (∀ t', dict_get d t' = rows_of read done (n_old t') t') →
  (∀ t', t' ∈ done → n_new t' = n_old t') →
  ∀ t',
    dict_get (foldl (fun d chan => set_channel d t chan (read chan t)) d
                    (seqZ 0 (n_new t))) t'
    = rows_of read (done ++ [t]) (n_new t') t'.
Proof.
  intros Hd Hn t'. rewrite set_channels_get.
  destruct (decide (t' = t)) as [->|Hne].
  - destruct (decide (0 < n_new t)%Z) as [Hpos|Hnpos].
    + rewrite decide_True.
      2:{ split; [done|]. intros Hnil%(f_equal length).
          rewrite length_seqZ in Hnil. simpl in Hnil. lia. }
      unfold rows_of at 1. rewrite decide_True by (split; [set_solver | done]).
      f_equal. rewrite Hd. unfold rows_of.
      destruct (decide (t ∈ done ∧ (0 < n_old t)%Z)) as [[Hin Hpos']|Hnin]; simpl.
      * rewrite <- (Hn t Hin). apply refill_row. intros chan Hchan.
        unfold channel_row. by rewrite (dict_get_row (fun chan => read chan t)).
      * assert (t ∉ done) as Hfresh.
        { intros Hin. apply Hnin. split; [done|]. by rewrite <- (Hn t Hin). }
        rewrite fill_row; [done | apply NoDup_seqZ | ].
        intros chan _. unfold keys. simpl. apply not_elem_of_nil.
    + rewrite seqZ_nil by lia. rewrite decide_False by (by intros [_ ?]).
      rewrite Hd. unfold rows_of.
      rewrite (decide_False (P := t ∈ done ++ [t] ∧ _)) by (intros [_ ?]; lia).
      case_decide as H; [|done]. destruct H as [Hin Hpos].
      rewrite <- (Hn t Hin) in Hpos. lia.
  - rewrite decide_False by (by intros [? _]). rewrite Hd. unfold rows_of.
    destruct (decide (t' ∈ done)) as [Hin|Hnin].
    + rewrite (Hn t' Hin).
      destruct (decide (0 < n_old t')%Z).
      * rewrite !decide_True; [done | split; [set_solver|done] | done].
      * rewrite !decide_False; [done | by intros [_ ?] | by intros [_ ?]].
    + rewrite !decide_False; [done | | by intros [? _]].
      intros [Hin' _]. set_solver.
Qed.

Lemma read_telescope_rows (ev : LibEvent) (cont : Container) (t : Z) :
  keys (pixel_pos cont) = keys (num_channels cont) →
  ∃ n,
    dict_get (num_channels (read_telescope ev cont t)) t = Some n ∧
    sampledata (read_telescope ev cont t)
    = Some (foldl (fun d chan => set_channel d t chan (get_adc_sample ev chan t))
                  (default [] (sampledata cont)) (seqZ 0 n)) ∧
    sumdata (read_telescope ev cont t)
    = Some (foldl (fun d chan => set_channel d t chan (get_adc_sum ev chan t))
                  (default [] (sumdata cont)) (seqZ 0 n)).
Proof.
  intros Hkeys. unfold read_telescope.
  destruct (decide (t ∈ keys (pixel_pos cont))) as [Hin|Hnin].
  - assert (Hn : is_Some (dict_get (num_channels cont) t)).
    { apply dict_get_is_Some. by rewrite <- Hkeys. }
    destruct Hn as [n Hn]. unfold defaultdict_int_get. rewrite Hn.
    rewrite (read_channels_split t (fun chan => get_adc_sample ev chan t)
               (fun chan => get_adc_sum ev chan t)).
    by exists n.
  - unfold defaultdict_int_get. rewrite dict_get_set_eq.
    rewrite (read_channels_split t (fun chan => get_adc_sample ev chan t)
               (fun chan => get_adc_sum ev chan t)).
    exists (get_num_channel ev t). simpl. by rewrite dict_get_set_eq.
Qed.

Lemma read_telescope_samples (ev : LibEvent) (done : list Z) (cont : Container) (t : Z) :
  telescopes_read ev done cont →
  telescopes_read ev (done ++ [t]) (read_telescope ev cont t).
Proof.
  intros (Hkeys & Hdone & _ & _ & Hrows).
  destruct (read_telescope_caches ev cont t Hkeys) as [Hkeys' Hget].
  destruct (read_telescope_rows ev cont t Hkeys) as (n & Hn & Hsd & Hsu).
  assert (Hkept : ∀ t', t' ∈ done →
            default 0%Z (dict_get (num_channels (read_telescope ev cont t)) t')
            = default 0%Z (dict_get (num_channels cont) t')).
  { intros t' Hin. destruct (Hget t') as [_ ->].
    assert (is_Some (dict_get (num_channels cont) t')) as [n' ->]; [|done].
    apply dict_get_is_Some. rewrite <- Hkeys. by apply Hdone. }
  assert (Hnt : n = default 0%Z (dict_get (num_channels (read_telescope ev cont t)) t))
    by (by rewrite Hn).
  unfold telescopes_read. rewrite Hsd, Hsu.
  split_and!; [done | | done | done | ].
  - intros t' Hin. apply dict_get_is_Some. destruct (Hget t') as [-> _].
    apply elem_of_app in Hin as [Hin | ->%list_elem_of_singleton].
    + apply Hdone, dict_get_is_Some in Hin as [p ->]. by eexists.
    + rewrite decide_True by done. destruct (dict_get (pixel_pos cont) t); by eexists.
  - intros t'. simpl. rewrite Hnt. split.
    + apply (set_channels_rows (get_adc_sample ev) done t
               (fun t' => default 0%Z (dict_get (num_channels cont) t'))
               (fun t' => default 0%Z
                            (dict_get (num_channels (read_telescope ev cont t)) t')));
        [intros t''; apply Hrows | done].
    + apply (set_channels_rows (get_adc_sum ev) done t
               (fun t' => default 0%Z (dict_get (num_channels cont) t'))
               (fun t' => default 0%Z
                            (dict_get (num_channels (read_telescope ev cont t)) t')));
        [intros t''; apply Hrows | done].
Qed.

Lemma read_telescopes_samples (ev : LibEvent) (tels done : list Z) (cont : Container) :
  telescopes_read ev done cont →
  telescopes_read ev (done ++ tels) (foldl (read_telescope ev) cont tels).
Proof.
  revert done cont. induction tels as [|t tels IH]; intros done cont Hinv; simpl.
  - by rewrite app_nil_r.
  - rewrite cons_middle, (assoc_L (++) done [t] tels).
    by apply IH, read_telescope_samples.
Qed.

Lemma read_event_samples (ev : LibEvent) (cont : Container) :
  keys (pixel_pos cont) = keys (num_channels cont) →
  telescopes_read ev (get_teldata_list ev) (read_event ev cont).
Proof.
  intros Hkeys. unfold read_event.
  apply (read_telescopes_samples ev (get_teldata_list ev) []).
  split_and!; simpl; [done | by intros t ?%elem_of_nil | by eexists | by eexists | ].
  intros t. unfold rows_of. by rewrite decide_False by (by intros [?%elem_of_nil _]).
Qed.

Lemma events_yielded (max_events : option Z) (stream : list LibEvent)
    (cont : Container) (counter : Z) (i : nat) (c : Container) :
  keys (pixel_pos cont) = keys (num_channels cont) →
  (events max_events stream cont counter).1 !! i = Some c →
  ∃ ev cont', stream !! i = Some ev ∧
              keys (pixel_pos cont') = keys (num_channels cont') ∧
              c = read_event ev cont'.
Proof.
  revert cont counter i. induction stream as [|ev stream IH]; intros cont counter i Hkeys;
    [done|].
  assert (Hfirst : ∀ c', [read_event ev cont] !! i = Some c' →
            ∃ ev' cont', (ev :: stream) !! i = Some ev' ∧
              keys (pixel_pos cont') = keys (num_channels cont') ∧
              c' = read_event ev' cont').
  { intros c' Hc'. destruct i as [|i]; [|done]. injection Hc' as <-.
    by exists ev, cont. }
  cbn [events]. destruct max_events as [n|]; [|apply Hfirst].
  case_decide; [apply Hfirst|].
  specialize (IH (read_event ev cont) (counter + 1)%Z).
  destruct (events (Some n) stream (read_event ev cont) (counter + 1)) as [ys e].
  cbn [fst] in *. destruct i as [|i]; simpl.
  - intros [= <-]. by exists ev, cont.
  - intros Hc. apply (IH i); [|done].
    by destruct (read_event_caches ev cont Hkeys) as [? _].
Qed.

(** X17: every container that the source yields holds the samples and the
    sums of the event it was yielded for, and of no other.  For a telescope
    of that event, [sampledata] and [sumdata] have one row: the channels
    from 0 in order up to the number of channels kept for the telescope in
    [num_channels], each with what [get_adc_sample] and [get_adc_sum] answer
    for it during this event.  A telescope that is not in the event, or
    whose number of channels is not positive, has no row; nothing of an
    earlier event is left. *)
Theorem hessio_event_source_samples (file : File) (url : string)
    (max_events : option Z) (i : nat) (c : Container) :
  (hessio_event_source file url max_events).1 !! i = Some c →
  ∃ ev, move_to_next_event file !! i = Some ev ∧
        tels_with_data c = Some (get_teldata_list ev) ∧
        is_Some (sampledata c) ∧ is_Some (sumdata c) ∧
        ∀ t,
          dict_get (default [] (sampledata c)) t
          = rows_of (get_adc_sample ev) (get_teldata_list ev)
                    (default 0%Z (dict_get (num_channels c) t)) t ∧
          dict_get (default [] (sumdata c)) t
          = rows_of (get_adc_sum ev) (get_teldata_list ev)
                    (default 0%Z (dict_get (num_channels c) t)) t.
Proof.
  unfold hessio_event_source. case_decide; [done|]. intros Hc.
  eapply events_yielded in Hc as (ev & cont' & Hev & Hkeys & ->); [|done].
  exists ev. split; [done|].
  destruct (read_event_ids ev cont') as (_ & _ & Htels).
  destruct (read_event_samples ev cont' Hkeys) as (_ & _ & Hsd & Hsu & Hrows).
  done.
Qed.

End hessio_samples.

Lemma hessio_event_source_samples_witness :
  (fun c => dict_get (default [] (Hessio.sampledata c)) 1%Z)
    <$> (Hessio.hessio_event_source Fixtures.three_events "gamma.simtel.gz" (Some 5%Z)).1 !! 2
  = Some (Some [(0%Z, VNum (EInt 80300)); (1%Z, VNum (EInt 80301))]).
Proof.
  destruct ((Hessio.hessio_event_source Fixtures.three_events "gamma.simtel.gz"
               (Some 5%Z)).1 !! 2) as [c|] eqn:Hc; [|by vm_compute in Hc].
  destruct (hessio_event_source_samples _ _ _ _ _ Hc) as (ev & Hev & _ & _ & _ & Hrows).
  destruct (Hrows 1%Z) as [Hs _]. simpl. rewrite Hs.
  vm_compute in Hc. injection Hc as <-. cbn in Hev. injection Hev as <-.
  reflexivity.
Defined.
